(** * QubitDevice: statistics extraction and adjoint differentiation

    A shallow embedding of [pennylane/_qubit_device.py] (class
    [QubitDevice]): the basis-state codec, the probability engine, the
    statistics dispatcher and the adjoint-Jacobian walk, followed by the
    properties established about them.

    Conventions of the embedding.
    - numpy integers of a fixed width are values of [Z]; every arithmetic
      step that numpy performs in the fixed width is followed by [wrap].
    - Python exceptions are values of [Error]; a method that can raise
      returns [Res A].  [Res] is an instance of stdpp's [MRet]/[MBind], so
      sequencing is written [x ← m; k].
    - float64 values are elements of an abstract type [F] with the few
      operations the code uses on them (a numeric backend); the backend is
      instantiated with exact rationals and with IEEE binary64
      ([PrimFloat]) where a concrete run is needed.
    - objects mutated in place (operations of a tape) live in a store and
      are referred to by reference. *)

From Stdlib Require Import ZArith List Bool String Lia QArith Sorted.
From Stdlib Require Import Floats.PrimFloat Numbers.Cyclic.Int63.Uint63.
From stdpp Require Import base option list gmap.

Local Open Scope Z_scope.

(** ** Exceptions *)

(** The return types of [pennylane.measurements.ObservableReturnTypes].
    Modelled from the spec: the enumeration itself is declared in
    [pennylane/measurements.py]; the spec (section 3) lists Expectation,
    Variance, Sample, Probability, State, VnEntropy and MutualInfo, and
    [OtherReturnType] stands for any further member (named by its
    [.value]) that the dispatcher does not recognise. *)
Inductive ReturnType : Type :=
| Sample
| Variance
| Expectation
| Probability
| State
| VnEntropy
| MutualInfo
| OtherReturnType (value : string).

(** The messages of the [qml.QuantumFunctionError]s raised in the module,
    one constructor per [raise] site (the spec's error taxonomy, section 7,
    gives the same sites separate names). *)
Inductive QFMessage : Type :=
| UnsupportedGradientMeasurement (rt : ReturnType)
    (* "Adjoint differentiation method does not support measurement ..." *)
| UnsupportedHamiltonianObservable
    (* "Adjoint differentiation method does not support Hamiltonian observables." *)
| UnsupportedAdjointOperation (name : string)
    (* "The ... operation is not supported using the "adjoint" differentiation method" *)
| StateWithOtherReturnTypes
    (* "The state or density matrix cannot be returned in combination with other return types" *)
| StateCustomWireLabels
| VnEntropyCustomWireLabels
| MutualInfoCustomWireLabels
| UnsupportedReturnType (name : string)
    (* "Unsupported return type specified for observable ..." *)
| StateNotCapable
    (* "The current device is not capable of returning the state" *)
| StateNotAvailable
    (* "The state is not available in the current device" *)
| ShotsRequired.
    (* "The number of shots has to be explicitly set on the device when
       using sample-based measurements." *)

Inductive Error : Type :=
| QuantumFunctionError (msg : QFMessage)
| TypeError          (* e.g. subscripting [None] *)
| ValueError         (* e.g. a reshape that does not fit *)
| IndexError
| KeyError
| ZeroDivisionError
| WireError
| NotImplementedError
| ExternalError (what : string).  (* raised inside a collaborator *)

Inductive Res (A : Type) : Type :=
| Ok (a : A)
| Raise (e : Error).
Arguments Ok {A} a.
Arguments Raise {A} e.

#[export] Instance Res_ret : MRet Res := fun A a => Ok a.
#[export] Instance Res_bind : MBind Res := fun A B f m =>
  match m with
  | Ok a => f a
  | Raise e => Raise e
  end.

(** A [for] loop that threads a value and stops at the first exception. *)
Fixpoint foldlM {A B} (f : B -> A -> Res B) (b : B) (l : list A) : Res B :=
  match l with
  | [] => Ok b
  | x :: rest => b' ← f b x; foldlM f b' rest
  end.

Definition is_Ok {A} (r : Res A) : bool :=
  match r with Ok _ => true | Raise _ => false end.

(** Warnings issued through [warnings.warn]; they are collected in order. *)
Inductive Warning : Type :=
| FiniteShotsAdjointWarning
| ObservableParameterWarning (name : string).

(** ** Fixed-width integers *)

Record Dtype : Type := { bits : Z; signed : bool }.

Definition int64 : Dtype := {| bits := 64; signed := true |}.
Definition uint32 : Dtype := {| bits := 32; signed := false |}.

(** Reduction of an exact integer to the value a [d] array element holds. *)
Definition wrap (d : Dtype) (z : Z) : Z :=
  if signed d
  then (z + 2 ^ (bits d - 1)) mod 2 ^ bits d - 2 ^ (bits d - 1)
  else z mod 2 ^ bits d.

Definition representable (d : Dtype) (z : Z) : bool :=
  if signed d
  then (- 2 ^ (bits d - 1) <=? z) && (z <? 2 ^ (bits d - 1))
  else (0 <=? z) && (z <? 2 ^ bits d).

(** [np.arange(n)]: [0, 1, ..., n-1]. *)
Definition arange (n : Z) : list Z := map Z.of_nat (seq 0 (Z.to_nat n)).

(** [1 << j] in dtype [d]: numpy shifts within the width and yields [0]
    for a shift count that reaches the width. *)
Definition shl1 (d : Dtype) (j : Z) : Z :=
  if j <? bits d then wrap d (Z.shiftl 1 j) else 0.

(** [2 ** j] for [j] an element of a default ([int64]) [np.arange]: the
    power is computed in 64 bits and wraps. *)
Definition pow2_int64 (j : Z) : Z := wrap int64 (2 ^ j).

(** [2 ** np.arange(k)[::-1]]: the big-endian positional weights. *)
Definition powers_of_two_desc (k : nat) : list Z :=
  map pow2_int64 (rev (arange (Z.of_nat k))).

(** One entry of [samples @ powers_of_two]: an [int64] dot product.  The
    rows multiplied in the module always have as many columns as there are
    weights. *)
Definition dot_int64 (row weights : list Z) : Z :=
  fold_left (fun acc ab => wrap int64 (acc + wrap int64 (fst ab * snd ab)))
            (combine row weights) 0.

(** [samples @ powers_of_two] for a two-dimensional [samples]. *)
Definition matvec_int64 (samples : list (list Z)) (weights : list Z) : list Z :=
  map (fun row => dot_int64 row weights) samples.

(** ** Basis-state codec *)

(** [QubitDevice.states_to_binary(samples, num_wires, dtype)].
    [samples] is a one-dimensional integer array of dtype [d]. *)
Definition states_to_binary (samples : list Z) (num_wires : nat) (d : Dtype)
  : list (list Z) :=
  let powers_of_two := map (shl1 d) (arange (Z.of_nat num_wires)) in
  let states_sampled_base_ten :=
    map (fun s => map (fun p => Z.land s p) powers_of_two) samples in
  map (fun row => rev (map (fun x => if 0 <? x then 1 else 0) row))
      states_sampled_base_ten.

(** [itertools.product(pool, repeat=n)], after the equivalent code of the
    Python documentation: [result = [[]]], then for each pool
    [result = [x + [y] for x in result for y in pool]]. *)
Definition itertools_product {A} (pool : list A) (n : nat) : list (list A) :=
  fold_left
    (fun result pool => flat_map (fun x => map (fun y => x ++ [y]) pool) result)
    (replicate n pool) [[]].

(** [a.reshape(-1, ncols)] of a one-dimensional array: numpy rejects an
    unknown dimension next to a zero one, and a size that [ncols] does not
    divide. *)
Fixpoint chunk_rows {A} (nrows ncols : nat) (flat : list A) : list (list A) :=
  match nrows with
  | O => []
  | S r => take ncols flat :: chunk_rows r ncols (drop ncols flat)
  end.

Definition reshape_rows {A} (flat : list A) (ncols : nat) : Res (list (list A)) :=
  if (ncols =? 0)%nat then Raise ValueError
  else if (length flat mod ncols =? 0)%nat
       then Ok (chunk_rows (length flat / ncols) ncols flat)
       else Raise ValueError.

(** The most-significant-first [n]-bit expansion of [m]: the multi-index
    of the flat (row-major) position [m] in a tensor with [n] axes of
    size 2. *)
Fixpoint bits_msb (n : nat) (m : Z) : list Z :=
  match n with
  | O => []
  | S k => bits_msb k (m / 2) ++ [m mod 2]
  end.

(** The two code paths of [generate_basis_states]. *)
Definition basis_states_vectorized (num_wires : nat) (d : Dtype) : list (list Z) :=
  let states_base_ten := map (wrap d) (arange (2 ^ Z.of_nat num_wires)) in
  states_to_binary states_base_ten num_wires d.

Definition basis_states_product (num_wires : nat) : Res (list (list Z)) :=
  let basis_states_generator := itertools_product [0; 1] num_wires in
  reshape_rows (concat basis_states_generator) num_wires.

(** [QubitDevice.generate_basis_states(num_wires, dtype=np.uint32)]. *)
Definition generate_basis_states (num_wires : nat) (d : Dtype) : Res (list (list Z)) :=
  if (2 <? num_wires)%nat && (num_wires <? 32)%nat
  then Ok (basis_states_vectorized num_wires d)
  else basis_states_product num_wires.

(** ** Numeric backend *)

(** The float64 operations the module applies to probabilities and
    Jacobian entries (the class's table of array primitives, section 9 of
    the spec).  [fdiv c n] is [c / n] for an integer count [c] and an
    integer [n], as numpy's true division computes it; [fmul_Z] is the
    product of a Python integer and a float. *)
Class NumericBackend (F : Type) : Type := {
  fzero : F;
  fadd : F -> F -> F;
  fdiv : Z -> Z -> F;
  fmul_Z : Z -> F -> F
}.

(** Exact rational arithmetic. *)
#[export] Instance Q_backend : NumericBackend Q := {|
  fzero := 0%Q;
  fadd := Qplus;
  fdiv := fun c n => Qred (inject_Z c / inject_Z n)%Q;
  fmul_Z := fun k x => (inject_Z k * x)%Q
|}.

(** IEEE 754 binary64, for integers that fit 63 bits. *)
Definition float_of_Z (z : Z) : float :=
  if z <? 0 then PrimFloat.opp (PrimFloat.of_uint63 (Uint63.of_Z (- z)))
  else PrimFloat.of_uint63 (Uint63.of_Z z).

#[export] Instance float64_backend : NumericBackend float := {|
  fzero := PrimFloat.zero;
  fadd := PrimFloat.add;
  fdiv := fun c n => PrimFloat.div (float_of_Z c) (float_of_Z n);
  fmul_Z := fun k x => PrimFloat.mul (float_of_Z k) x
|}.

(** ** Wires and the device *)

Inductive WireLabel : Type :=
| IntWire (z : Z)
| StrWire (s : string).

#[export] Instance WireLabel_eq_dec : EqDecision WireLabel.
Proof.
  intros x y. unfold Decision.
  decide equality; [apply Z.eq_dec | apply String.string_dec].
Defined.

Definition wire_in (w : WireLabel) (ws : list WireLabel) : bool :=
  existsb (fun v => bool_decide (v = w)) ws.

Fixpoint has_duplicates (ws : list WireLabel) : bool :=
  match ws with
  | [] => false
  | w :: rest => wire_in w rest || has_duplicates rest
  end.

(** [Wires(wires)].  Modelled from the spec: the class is declared in
    [pennylane/wires.py]; section 3 states its invariant, an ordered set
    of unique labels, which the constructor enforces. *)
Definition Wires (ws : list WireLabel) : Res (list WireLabel) :=
  if has_duplicates ws then Raise WireError else Ok ws.

(** [Wires.unique_wires([self.wires, wires])].  Modelled from the spec:
    section 4.3 describes it as the inactive set, the device wires minus
    the requested wires. *)
Definition unique_wires (device_wires wires : list WireLabel) : list WireLabel :=
  List.filter (fun w => negb (wire_in w wires)) device_wires.

Fixpoint index_of (w : WireLabel) (ws : list WireLabel) : option nat :=
  match ws with
  | [] => None
  | v :: rest => if bool_decide (v = w) then Some O else S <$> index_of w rest
  end.

(** [self.map_wires(wires)].  Modelled from the spec: the method is
    declared in [pennylane/_device.py]; section 6 gives it as
    [mapWires(wires) -> deviceWireIndices], the position of each label in
    the device's wire order. *)
Definition map_wires (device_wires wires : list WireLabel) : Res (list nat) :=
  mapM (fun w => match index_of w device_wires with
                 | Some i => Ok i
                 | None => Raise WireError
                 end) wires.

(** What [probability] returns: a vector, or with [bin_size] a matrix with
    one row per basis state and one column per bin. *)
Inductive ProbResult (F : Type) : Type :=
| ProbVec (p : list F)
| ProbMat (p : list (list F)).
Arguments ProbVec {F} p.
Arguments ProbMat {F} p.

(** The attributes and overridable methods of a [QubitDevice] that the
    probability engine reads.  [analytic_probability] raises
    [NotImplementedError] in the base class and is supplied by analytic
    devices; [random_choice] stands for [np.random.choice]. *)
Record QubitDevice (F : Type) : Type := {
  wires : list WireLabel;
  shots : option Z;
  _samples : option (list (list Z));
  analytic_probability : option (list WireLabel) -> Res (ProbResult F);
  random_choice : list Z -> Z -> ProbResult F -> Res (list Z)
}.
Arguments wires {F} _.
Arguments shots {F} _.
Arguments _samples {F} _.
Arguments analytic_probability {F} _ _.
Arguments random_choice {F} _ _ _ _.

Definition num_wires {F} (self : QubitDevice F) : nat := length (wires self).

(** The attribute assignment [self.shots = value]. *)
Definition with_shots {F} (self : QubitDevice F) (value : option Z) : QubitDevice F :=
  {| wires := wires self;
     shots := value;
     _samples := _samples self;
     analytic_probability := analytic_probability self;
     random_choice := random_choice self |}.

(** ** Array helpers *)

(** [rows[slice(start, stop)]] with Python's treatment of negative and
    out-of-range bounds. *)
Definition slice_bound (len i : Z) : Z :=
  if i <? 0 then Z.max 0 (i + len) else Z.min i len.

Definition py_slice {A} (l : list A) (start stop : Z) : list A :=
  let len := Z.of_nat (length l) in
  let a := slice_bound len start in
  let b := slice_bound len stop in
  take (Z.to_nat (b - a)) (drop (Z.to_nat a) l).

(** [samples[sample_slice, device_wires]]: the row slice, then the listed
    columns of every row. *)
Definition select_rows {A} (l : list A) (shot_range : option (Z * Z)) : list A :=
  match shot_range with
  | None => l
  | Some (start, stop) => py_slice l start stop
  end.

Definition select_columns (rows : list (list Z)) (cols : list nat) : Res (list (list Z)) :=
  mapM (fun row =>
          mapM (fun c => match row !! c with
                         | Some x => Ok x
                         | None => Raise IndexError
                         end) cols) rows.

(** [np.unique(a, return_counts=True)]: the distinct values in ascending
    order, each with its number of occurrences. *)
Fixpoint count_insert (x : Z) (acc : list (Z * Z)) : list (Z * Z) :=
  match acc with
  | [] => [(x, 1)]
  | (y, c) :: rest =>
      if x <? y then (x, 1) :: (y, c) :: rest
      else if x =? y then (y, c + 1) :: rest
      else (y, c) :: count_insert x rest
  end.

Definition np_unique_counts (a : list Z) : list (Z * Z) :=
  fold_left (fun acc x => count_insert x acc) a [].

(** [np.zeros([n])]: a dimension must fit a signed 64-bit size. *)
Definition np_zeros {F} `{NumericBackend F} (n : Z) : Res (list F) :=
  if n <? 2 ^ 63 then Ok (replicate (Z.to_nat n) fzero) else Raise ValueError.

(** Resolution of an index into an axis of length [len]: negative indices
    count from the end. *)
Definition np_index (len : nat) (i : Z) : Res nat :=
  if (0 <=? i) && (i <? Z.of_nat len) then Ok (Z.to_nat i)
  else if (- Z.of_nat len <=? i) && (i <? 0) then Ok (Z.to_nat (i + Z.of_nat len))
  else Raise IndexError.

(** [a[i] = v]. *)
Definition set_item {A} (a : list A) (i : Z) (v : A) : Res (list A) :=
  k ← np_index (length a) i; Ok (<[k := v]> a).

(** [prob[basis_states] = counts / n] for the pairs of [np.unique]. *)
Definition set_counts {F} `{NumericBackend F}
    (prob : list F) (uc : list (Z * Z)) (n : Z) : Res (list F) :=
  foldlM (fun prob bc => set_item prob (fst bc) (fdiv (snd bc) n)) prob uc.

(** [indices.reshape((bins, -1))] of a one-dimensional array. *)
Definition reshape_bins {A} (flat : list A) (bins : Z) : Res (list (list A)) :=
  if bins <=? 0 then Raise ValueError
  else if Z.of_nat (length flat) mod bins =? 0
       then Ok (chunk_rows (Z.to_nat bins) (Z.to_nat (Z.of_nat (length flat) / bins)) flat)
       else Raise ValueError.

(** [np.zeros([n, bins])]. *)
Definition np_zeros2 {F} `{NumericBackend F} (n bins : Z) : Res (list (list F)) :=
  if n <? 2 ^ 63 then Ok (replicate (Z.to_nat n) (replicate (Z.to_nat bins) fzero))
  else Raise ValueError.

(** [prob[basis_states, b] = counts / bin_size] for the pairs of [np.unique]. *)
Definition set_counts_column {F} `{NumericBackend F}
    (prob : list (list F)) (b : nat) (uc : list (Z * Z)) (bin_size : Z)
  : Res (list (list F)) :=
  foldlM (fun prob bc =>
            k ← np_index (length prob) (fst bc);
            Ok (alter (fun row => <[b := fdiv (snd bc) bin_size]> row) k prob))
         prob uc.

(** [np.argsort] of a list of distinct integers (a stable insertion sort
    of the positions by key). *)
Fixpoint insert_by_key (x : nat * nat) (l : list (nat * nat)) : list (nat * nat) :=
  match l with
  | [] => [x]
  | y :: rest => if (fst y <=? fst x)%nat then y :: insert_by_key x rest else x :: y :: rest
  end.

Definition argsort (l : list nat) : list nat :=
  map snd (fold_left (fun acc x => insert_by_key x acc) (zip l (seq 0 (length l))) []).

(** ** Probability engine *)

Section ProbabilityEngine.
Context {F : Type} `{NumericBackend F}.
Variable self : QubitDevice F.

(** [sample_basis_states(self, number_of_states, state_probability)]. *)
Definition sample_basis_states (number_of_states : Z) (state_probability : ProbResult F)
  : Res (list Z) :=
  match shots self with
  | None => Raise (QuantumFunctionError ShotsRequired)
  | Some shots =>
      let basis_states := arange number_of_states in
      random_choice self basis_states shots state_probability
  end.

(** [generate_samples(self)]. *)
Definition generate_samples : Res (list (list Z)) :=
  let number_of_states := 2 ^ Z.of_nat (num_wires self) in
  rotated_prob ← analytic_probability self None;
  samples ← sample_basis_states number_of_states rotated_prob;
  Ok (states_to_binary samples (num_wires self) int64).

(** [wires or self.wires]: [None] and an empty collection are falsy. *)
Definition wires_or_self (wires_arg : option (list WireLabel)) : list WireLabel :=
  match wires_arg with
  | None => wires self
  | Some [] => wires self
  | Some ws => ws
  end.

(** [estimate_probability(self, wires, shot_range, bin_size)], for the
    default [R_DTYPE = np.float64], under which the final [_asarray]
    leaves the array as it is. *)
Definition estimate_probability (wires_arg : option (list WireLabel))
    (shot_range : option (Z * Z)) (bin_size : option Z) : Res (ProbResult F) :=
  let wires0 := wires_or_self wires_arg in
  wires1 ← Wires wires0;
  device_wires ← map_wires (wires self) wires1;
  samples ← match _samples self with
            | None => Raise TypeError
            | Some buffer => select_columns (select_rows buffer shot_range) device_wires
            end;
  let powers_of_two := powers_of_two_desc (length device_wires) in
  let indices := matvec_int64 samples powers_of_two in
  match bin_size with
  | Some bin_size =>
      bins ← (if bin_size =? 0 then Raise ZeroDivisionError
              else Ok (Z.of_nat (length samples) / bin_size));
      indices ← reshape_bins indices bins;
      prob ← np_zeros2 (2 ^ Z.of_nat (length device_wires)) bins;
      prob ← foldlM (fun prob b_idx =>
                       set_counts_column prob (fst b_idx)
                                         (np_unique_counts (snd b_idx)) bin_size)
                    prob (zip (seq 0 (length indices)) indices);
      Ok (ProbMat prob)
  | None =>
      let basis_states_counts := np_unique_counts indices in
      prob ← np_zeros (2 ^ Z.of_nat (length device_wires));
      prob ← set_counts prob basis_states_counts (Z.of_nat (length samples));
      Ok (ProbVec prob)
  end.

(** [probability(self, wires, shot_range, bin_size)]. *)
Definition probability (wires_arg : option (list WireLabel))
    (shot_range : option (Z * Z)) (bin_size : option Z) : Res (ProbResult F) :=
  match shots self with
  | None => analytic_probability self wires_arg
  | Some _ => estimate_probability wires_arg shot_range bin_size
  end.

(** [self._reshape(prob, [2] * self.num_wires)]: the size must be
    [2 ** num_wires]; the entries keep their row-major order. *)
Definition reshape_tensor (prob : list F) (n : nat) : Res (list F) :=
  if Z.of_nat (length prob) =? 2 ^ Z.of_nat n then Ok prob else Raise ValueError.

(** [self._flatten(self._reduce_sum(prob, axes))] on the tensor with one
    axis per wire: entry [j] of the result adds the entries of [prob]
    whose bits on the remaining axes, in order, spell [j]. *)
Definition remaining_axes (n : nat) (axes : list nat) : list nat :=
  List.filter (fun a => negb (existsb (Nat.eqb a) axes)) (seq 0 n).

Definition project_bits (row : list Z) (axes : list nat) : list Z :=
  map (fun a => nth a row 0) axes.

Definition reduce_sum_flatten (n : nat) (axes : list nat) (prob : list F) : list F :=
  let keep := remaining_axes n axes in
  map (fun j =>
         fold_left
           (fun acc ip =>
              if bool_decide (project_bits (bits_msb n (fst ip)) keep
                              = bits_msb (length keep) j)
              then fadd acc (snd ip) else acc)
           (zip (arange (2 ^ Z.of_nat n)) prob) fzero)
      (arange (2 ^ Z.of_nat (length keep))).

(** [self._gather(prob, perm)], that is [prob[perm]]. *)
Definition gather (prob : list F) (perm : list Z) : Res (list F) :=
  mapM (fun i => k ← np_index (length prob) i;
                 match prob !! k with
                 | Some x => Ok x
                 | None => Raise IndexError
                 end) perm.

(** [marginal_prob(self, prob, wires)]. *)
Definition marginal_prob (prob : list F) (wires_arg : option (list WireLabel))
  : Res (list F) :=
  match wires_arg with
  | None => Ok prob
  | Some ws =>
      wires1 ← Wires ws;
      let inactive_wires := unique_wires (wires self) wires1 in
      device_wires ← map_wires (wires self) wires1;
      inactive_device_wires ← map_wires (wires self) inactive_wires;
      prob ← reshape_tensor prob (num_wires self);
      let prob := reduce_sum_flatten (num_wires self) inactive_device_wires prob in
      let num_wires := length device_wires in
      basis_states ← generate_basis_states num_wires uint32;
      basis_states ← select_columns basis_states (argsort (argsort device_wires));
      let powers_of_two := powers_of_two_desc (length device_wires) in
      let perm := matvec_int64 basis_states powers_of_two in
      gather prob perm
  end.
End ProbabilityEngine.

(** ** Statistics dispatcher *)

(** What the dispatcher reads of an observable (or of a measurement
    process standing in for one). *)
Record Observable (F : Type) : Type := {
  obs_name : string;
  return_type : option ReturnType;
  obs_wires : list WireLabel;
  raw_wires : list (list WireLabel);
  log_base : option F
}.
Arguments obs_name {F} _.
Arguments return_type {F} _.
Arguments obs_wires {F} _.
Arguments raw_wires {F} _.
Arguments log_base {F} _.

(** The methods and attributes of [self] that [statistics] goes through.
    [expval], [var], [sample] and [probability] are dispatched on the
    device and return one result each or raise; [state] is the property
    that state-vector devices override ([getattr(self, "state", None)]),
    and the three [math_] fields are the [qml.math] routines. *)
Record StatisticsDevice (F R : Type) : Type := {
  sd_wires : list WireLabel;
  expval : Observable F -> option (Z * Z) -> option Z -> Res R;
  var : Observable F -> option (Z * Z) -> option Z -> Res R;
  sample : Observable F -> option (Z * Z) -> option Z -> Res R;
  sd_probability : option (list WireLabel) -> option (Z * Z) -> option Z -> Res R;
  returns_state : bool;
  state : Res (option R);
  math_reduced_dm : option R -> list WireLabel -> Res R;
  math_vn_entropy : R -> list WireLabel -> option F -> Res R;
  math_mutual_info : R -> list WireLabel -> list WireLabel -> option F -> Res R
}.
Arguments sd_wires {F R} _.
Arguments expval {F R} _ _ _ _.
Arguments var {F R} _ _ _ _.
Arguments sample {F R} _ _ _ _.
Arguments sd_probability {F R} _ _ _ _.
Arguments returns_state {F R} _.
Arguments state {F R} _.
Arguments math_reduced_dm {F R} _ _ _.
Arguments math_vn_entropy {F R} _ _ _ _.
Arguments math_mutual_info {F R} _ _ _ _ _.

Section Statistics.
Context {F R : Type}.
Variable self : StatisticsDevice F R.

(** [self.wires.labels != tuple(range(self.num_wires))]. *)
Definition custom_wire_labels : bool :=
  negb (bool_decide (sd_wires self
                     = map (fun i => IntWire (Z.of_nat i)) (seq 0 (length (sd_wires self))))).

(** [density_matrix(self, wires)]. *)
Definition density_matrix (ws : list WireLabel) : Res R :=
  st ← state self;
  math_reduced_dm self st ws.

(** [access_state(self, wires=None)]. *)
Definition access_state (ws : option (list WireLabel)) : Res R :=
  if negb (returns_state self) then Raise (QuantumFunctionError StateNotCapable)
  else
    st ← state self;
    match st with
    | None => Raise (QuantumFunctionError StateNotAvailable)
    | Some st =>
        match ws with
        | Some (w :: rest) => density_matrix (w :: rest)
        | _ => Ok st
        end
    end.

(** The [try ... except qml.QuantumFunctionError] around [access_state]. *)
Definition access_state_or_not_implemented : Res R :=
  match access_state None with
  | Raise (QuantumFunctionError _) => Raise NotImplementedError
  | r => r
  end.

(** [vn_entropy(self, wires, log_base)]. *)
Definition vn_entropy (ws : list WireLabel) (base : option F) : Res R :=
  st ← access_state_or_not_implemented;
  math_vn_entropy self st ws base.

(** [mutual_info(self, wires0, wires1, log_base)]. *)
Definition mutual_info (wires0 wires1 : list WireLabel) (base : option F) : Res R :=
  st ← access_state_or_not_implemented;
  math_mutual_info self st wires0 wires1 base.

(** The body of the [for obs in observables] loop of [statistics]. *)
Definition statistics_step (observables : list (Observable F))
    (shot_range : option (Z * Z)) (bin_size : option Z)
    (results : list R) (obs : Observable F) : Res (list R) :=
  match return_type obs with
  | Some Expectation =>
      r ← expval self obs shot_range bin_size; Ok (results ++ [r])
  | Some Variance =>
      r ← var self obs shot_range bin_size; Ok (results ++ [r])
  | Some Sample =>
      r ← sample self obs shot_range bin_size; Ok (results ++ [r])
  | Some Probability =>
      r ← sd_probability self (Some (obs_wires obs)) shot_range bin_size;
      Ok (results ++ [r])
  | Some State =>
      if (1 <? length observables)%nat
      then Raise (QuantumFunctionError StateWithOtherReturnTypes)
      else if custom_wire_labels
      then Raise (QuantumFunctionError StateCustomWireLabels)
      else r ← access_state (Some (obs_wires obs)); Ok (results ++ [r])
  | Some VnEntropy =>
      if custom_wire_labels
      then Raise (QuantumFunctionError VnEntropyCustomWireLabels)
      else r ← vn_entropy (obs_wires obs) (log_base obs); Ok (results ++ [r])
  | Some MutualInfo =>
      if custom_wire_labels
      then Raise (QuantumFunctionError MutualInfoCustomWireLabels)
      else
        match raw_wires obs with
        | [wires0; wires1] =>
            r ← mutual_info wires0 wires1 (log_base obs); Ok (results ++ [r])
        | _ => Raise ValueError
        end
  | Some (OtherReturnType _) =>
      Raise (QuantumFunctionError (UnsupportedReturnType (obs_name obs)))
  | None => Ok results
  end.

(** Whether the observable declares a return type. *)
Definition has_return_type (obs : Observable F) : bool :=
  match return_type obs with Some _ => true | None => false end.

(** [statistics(self, observables, shot_range, bin_size)]. *)
Definition statistics (observables : list (Observable F))
    (shot_range : option (Z * Z)) (bin_size : option Z) : Res (list R) :=
  foldlM (statistics_step observables shot_range bin_size) [] observables.
End Statistics.

(** ** Adjoint Jacobian *)

(** An operation object of the tape.  [op_is_Rot] is
    [isinstance(op, qml.Rot)]. *)
Record Operation : Type := {
  op_name : string;
  op_num_params : nat;
  op_grad_method : option string;
  op_inverse : bool;
  op_is_Rot : bool;
  op_wires : list WireLabel
}.

(** [op.inv()] toggles the direction of the object it is called on. *)
Definition inv (op : Operation) : Operation :=
  {| op_name := op_name op;
     op_num_params := op_num_params op;
     op_grad_method := op_grad_method op;
     op_inverse := negb (op_inverse op);
     op_is_Rot := op_is_Rot op;
     op_wires := op_wires op |}.

(** Operation objects live in a store and are shared by reference: the
    tape's operation list is a list of references, and [op.inv()] updates
    the store in place.  Objects created during the call are appended. *)
Abbreviation OpStore := (list Operation).

Definition deref (store : OpStore) (r : nat) : Res Operation :=
  match store !! r with
  | Some op => Ok op
  | None => Raise (ExternalError "dangling reference")
  end.

(** What the adjoint method reads of a measurement process:
    [m.return_type], a member of the enumeration (the error message reads
    its [.value]), and [m.obs.name]. *)
Record Measurement : Type := {
  m_return_type : ReturnType;
  m_obs_name : string
}.

(** An entry of [tape._par_info]: the operator owning the parameter. *)
Record ParInfo : Type := {
  par_op_name : string;
  par_op_has_return_type : bool   (* hasattr(op, "return_type") *)
}.

Record Tape (F : Type) : Type := {
  measurements : list Measurement;
  observables : list (Observable F);
  operations : list nat;
  trainable_params : list Z;
  _par_info : gmap Z ParInfo;
  (* tape.get_parameters(trainable_only=False, operations_only=True) *)
  operation_parameters : list F
}.
Arguments measurements {F} _.
Arguments observables {F} _.
Arguments operations {F} _.
Arguments trainable_params {F} _.
Arguments _par_info {F} _.
Arguments operation_parameters {F} _.

(** A two-dimensional float array: its shape and its rows. *)
Record Matrix (F : Type) : Type := {
  shape : nat * nat;
  entries : list (list F)
}.
Arguments shape {F} _.
Arguments entries {F} _.

(** The state-evolution collaborators of the adjoint method.  [St] is a
    state tensor and [Mx] an operator matrix.  [reset_execute] is
    [self.reset(); self.execute(tape)] followed by the read of
    [self._pre_rotated_state]; [dot_real b k] is
    [real(sum(conj(b) * k))] over all wire axes. *)
Record AdjointDevice (F St Mx : Type) : Type := {
  ad_shots : option Z;
  _reshape : St -> Res St;
  reset_execute : Tape F -> OpStore -> Res St;
  _pre_rotated_state : Res St;
  _apply_operation : St -> Operation -> Res St;
  _apply_observable : St -> Observable F -> Res St;
  operation_derivative : Operation -> Res Mx;
  _apply_unitary : St -> Mx -> list WireLabel -> Res St;
  dot_real : St -> St -> F;
  decomposition : Operation -> list Operation
}.
Arguments ad_shots {F St Mx} _.
Arguments _reshape {F St Mx} _ _.
Arguments reset_execute {F St Mx} _ _ _.
Arguments _pre_rotated_state {F St Mx} _.
Arguments _apply_operation {F St Mx} _ _ _.
Arguments _apply_observable {F St Mx} _ _ _.
Arguments operation_derivative {F St Mx} _ _.
Arguments _apply_unitary {F St Mx} _ _ _ _.
Arguments dot_real {F St Mx} _ _ _.
Arguments decomposition {F St Mx} _ _.

(** The local variables of the backward walk, and the store. *)
Record WalkState (F St Mx : Type) : Type := {
  ket : St;
  bras : list St;
  jac : Matrix F;
  d_op_matrix : option Mx;
  param_number : Z;
  trainable_param_number : Z;
  store : OpStore
}.
Arguments ket {F St Mx} _.
Arguments bras {F St Mx} _.
Arguments jac {F St Mx} _.
Arguments d_op_matrix {F St Mx} _.
Arguments param_number {F St Mx} _.
Arguments trainable_param_number {F St Mx} _.
Arguments store {F St Mx} _.

(** What a successful call leaves behind: the returned Jacobian, the
    warnings issued, and the store of operation objects. *)
Record AdjointResult (F : Type) : Type := {
  returned_jac : Matrix F;
  warnings : list Warning;
  store_after : OpStore
}.
Arguments returned_jac {F} _.
Arguments warnings {F} _.
Arguments store_after {F} _.

Definition is_Expectation (rt : ReturnType) : bool :=
  match rt with Expectation => true | _ => false end.

Section AdjointJacobian.
Context {F St Mx : Type} `{NumericBackend F}.
Variable self : AdjointDevice F St Mx.

(** The body of [for m in tape.measurements].  Its last statement gives
    [m.obs] a [base_name] attribute when it has none; nothing in the
    method reads that attribute, and it is left out. *)
Definition check_measurement (m : Measurement) : Res unit :=
  if negb (is_Expectation (m_return_type m))
  then Raise (QuantumFunctionError (UnsupportedGradientMeasurement (m_return_type m)))
  else if String.eqb (m_obs_name m) "Hamiltonian"
  then Raise (QuantumFunctionError UnsupportedHamiltonianObservable)
  else Ok tt.

Definition check_measurements (ms : list Measurement) : Res unit :=
  foldlM (fun _ m => check_measurement m) tt ms.

(** The body of [for op in reversed(tape.operations)]: the expanded
    list of references, and the store extended with the objects that
    [op.decomposition()] creates. *)
Definition expand_step (acc : list nat * OpStore) (r : nat) : Res (list nat * OpStore) :=
  let '(expanded_ops, store) := acc in
  op ← deref store r;
  if (1 <? op_num_params op)%nat then
    if op_is_Rot op && negb (op_inverse op) then
      let ops := decomposition self op in
      let refs := seq (length store) (length ops) in
      Ok (expanded_ops ++ rev refs, store ++ ops)
    else Raise (QuantumFunctionError (UnsupportedAdjointOperation (op_name op)))
  else
    if existsb (String.eqb (op_name op)) ["QubitStateVector"; "BasisState"; "Snapshot"]%string
    then Ok (expanded_ops, store)
    else Ok (expanded_ops ++ [r], store).

Definition expand_operations (tape_operations : list nat) (store : OpStore)
  : Res (list nat * OpStore) :=
  foldlM expand_step ([], store) (rev tape_operations).

(** The body of [for k in tape.trainable_params]. *)
Definition trainable_step (par_info : gmap Z ParInfo)
    (acc : list Z * list Warning) (k : Z) : Res (list Z * list Warning) :=
  let '(trainable_params, warns) := acc in
  match par_info !! k with
  | None => Raise KeyError
  | Some info =>
      if par_op_has_return_type info
      then Ok (trainable_params, warns ++ [ObservableParameterWarning (par_op_name info)])
      else Ok (trainable_params ++ [k], warns)
  end.

Definition select_trainable (par_info : gmap Z ParInfo) (ks : list Z)
  : Res (list Z * list Warning) :=
  foldlM (trainable_step par_info) ([], []) ks.

(** [np.zeros((rows, cols))]. *)
Definition np_zeros_matrix (rows cols : nat) : Matrix F :=
  {| shape := (rows, cols); entries := replicate rows (replicate cols fzero) |}.

(** [jac[:, t] = column]. *)
Definition set_column (jac : Matrix F) (t : Z) (column : list F) : Res (Matrix F) :=
  c ← np_index (snd (shape jac)) t;
  if negb (length column =? fst (shape jac))%nat then Raise ValueError
  else Ok {| shape := shape jac;
             entries := zip_with (fun row v => <[c := v]> row) (entries jac) column |}.

(** [dot_product_real(bras, k)]: one real inner product per bra. *)
Definition dot_product_real (bras : list St) (k : St) : list F :=
  map (fun b => dot_real self b k) bras.

(** The body of [for op in expanded_ops]. *)
Definition walk_step (trainable_params : list Z)
    (st : WalkState F St Mx) (r : nat) : Res (WalkState F St Mx) :=
  op ← deref (store st) r;
  let trainable_here := bool_decide (param_number st ∈ trainable_params) in
  d_op_matrix ← (if bool_decide (op_grad_method op ≠ None) && trainable_here
                 then d ← operation_derivative self op; Ok (Some d)
                 else Ok (d_op_matrix st));
  (* op.inv() *)
  let store1 := alter inv r (store st) in
  op ← deref store1 r;
  ket ← _apply_operation self (ket st) op;
  '(jac, trainable_param_number, param_number) ←
    (if bool_decide (op_grad_method op ≠ None) then
       '(jac, trainable_param_number) ←
         (if trainable_here then
            match d_op_matrix with
            | None => Raise (ExternalError "d_op_matrix is unbound")
            | Some d =>
                ket_temp ← _apply_unitary self ket d (op_wires op);
                jac ← set_column (jac st) (trainable_param_number st)
                                 (map (fmul_Z 2) (dot_product_real (bras st) ket_temp));
                Ok (jac, trainable_param_number st - 1)
            end
          else Ok (jac st, trainable_param_number st));
       Ok (jac, trainable_param_number, param_number st - 1)
     else Ok (jac st, trainable_param_number st, param_number st));
  bras ← mapM (fun b => _apply_operation self b op) (bras st);
  (* op.inv() *)
  let store2 := alter inv r store1 in
  Ok {| ket := ket; bras := bras; jac := jac; d_op_matrix := d_op_matrix;
        param_number := param_number;
        trainable_param_number := trainable_param_number;
        store := store2 |}.

(** [adjoint_jacobian(self, tape, starting_state, use_device_state)],
    run against the store holding the tape's operation objects. *)
Definition adjoint_jacobian (tape : Tape F) (store0 : OpStore)
    (starting_state : option St) (use_device_state : bool) : Res (AdjointResult F) :=
  _ ← check_measurements (measurements tape);
  let warns0 := match ad_shots self with
                | Some _ => [FiniteShotsAdjointWarning]
                | None => []
                end in
  ket ← match starting_state with
        | Some s => _reshape self s
        | None => if negb use_device_state
                  then reset_execute self tape store0
                  else _pre_rotated_state self
        end;
  let n_obs := length (observables tape) in
  bras ← mapM (fun o => _apply_observable self ket o) (observables tape);
  '(expanded_ops, store1) ← expand_operations (operations tape) store0;
  '(trainable_params, warns1) ← select_trainable (_par_info tape) (trainable_params tape);
  let jac0 := np_zeros_matrix n_obs (length trainable_params) in
  let param_number0 := Z.of_nat (length (operation_parameters tape)) - 1 in
  let trainable_param_number0 := Z.of_nat (length trainable_params) - 1 in
  final ← foldlM (walk_step trainable_params)
                 {| ket := ket; bras := bras; jac := jac0; d_op_matrix := None;
                    param_number := param_number0;
                    trainable_param_number := trainable_param_number0;
                    store := store1 |}
                 expanded_ops;
  Ok {| returned_jac := jac final;
        warnings := warns0 ++ warns1;
        store_after := store final |}.
End AdjointJacobian.

(** ** Vocabulary of the properties *)

(** Whether trainable parameter [k] belongs to an operator that carries a
    return type, that is, to a measured observable and not to a gate. *)
Definition belongs_to_observable (par_info : gmap Z ParInfo) (k : Z) : bool :=
  match par_info !! k with
  | Some info => par_op_has_return_type info
  | None => false
  end.

(** The warnings due for the trainable parameters that belong to
    observables, in order. *)
Definition observable_parameter_warnings (par_info : gmap Z ParInfo) (ks : list Z)
  : list Warning :=
  omap (fun k => match par_info !! k with
                 | Some info =>
                     if par_op_has_return_type info
                     then Some (ObservableParameterWarning (par_op_name info))
                     else None
                 | None => None
                 end) ks.

(** A matrix whose rows agree with its shape. *)
Definition matrix_wf {F} (m : Matrix F) : Prop :=
  length (entries m) = fst (shape m)
  /\ Forall (fun row => length row = snd (shape m)) (entries m).



(** The sum of a list of integers. *)
Definition sum_Z (l : list Z) : Z := fold_right Z.add 0 l.

(** The entries of a sample buffer are basis measurement outcomes. *)
Definition is_bit (b : Z) : Prop := b = 0 \/ b = 1.

(** The integer a row of bits spells, most significant bit first. *)
Definition binary_value (row : list Z) : Z :=
  fold_left (fun acc b => 2 * acc + b) row 0.

(** ** Concrete devices and tapes

    Small instances on which the definitions above are run. *)

(** A three-wire device over exact rationals whose analytic distribution
    is uniform over the requested wires. *)
Definition uniform_probability (n : nat) (wires_arg : option (list WireLabel))
  : Res (ProbResult Q) :=
  let k := match wires_arg with
           | None => n
           | Some ws => length ws
           end in
  Ok (ProbVec (replicate (2 ^ k) (fdiv 1 (2 ^ Z.of_nat k)))).

Definition three_wire_device (sh : option Z) (buffer : option (list (list Z)))
  : QubitDevice Q :=
  {| wires := [IntWire 0; IntWire 1; IntWire 2];
     shots := sh;
     _samples := buffer;
     analytic_probability := uniform_probability 3;
     random_choice := fun _ _ _ => Raise NotImplementedError |}.

(** Four shots on three wires. *)
Definition four_shots : list (list Z) :=
  [[0; 0; 1]; [0; 1; 1]; [1; 1; 1]; [0; 0; 1]].



(** A dispatcher target whose methods return distinct integers. *)
Definition tagging_device : StatisticsDevice Q Z :=
  {| sd_wires := [IntWire 0; IntWire 1];
     expval := fun _ _ _ => Ok 1;
     var := fun _ _ _ => Ok 2;
     sample := fun _ _ _ => Ok 3;
     sd_probability := fun _ _ _ => Ok 4;
     returns_state := true;
     state := Ok (Some 5);
     math_reduced_dm := fun _ _ => Ok 6;
     math_vn_entropy := fun _ _ _ => Ok 7;
     math_mutual_info := fun _ _ _ _ => Ok 8 |}.

Definition observable_of (name : string) (rt : option ReturnType) (w : Z) : Observable Q :=
  {| obs_name := name;
     return_type := rt;
     obs_wires := [IntWire w];
     raw_wires := [[IntWire w]];
     log_base := None |}.

(** An expectation value, an observable without return type, a variance. *)
Definition three_observables : list (Observable Q) :=
  [observable_of "PauliZ" (Some Expectation) 0;
   observable_of "PauliX" None 1;
   observable_of "PauliY" (Some Variance) 1].

(** A state-evolution backend over integers: a state counts the
    operations applied to it (inverted ones count double). *)
Definition counting_backend (sh : option Z) : AdjointDevice Q Z Z :=
  {| ad_shots := sh;
     _reshape := fun s => Ok s;
     reset_execute := fun _ _ => Ok 0;
     _pre_rotated_state := Ok 0;
     _apply_operation := fun s op => Ok (s + (if op_inverse op then 2 else 1));
     _apply_observable := fun s _ => Ok (s + 10);
     operation_derivative := fun op => Ok (Z.of_nat (op_num_params op));
     _apply_unitary := fun s d _ => Ok (s + d);
     dot_real := fun b k => inject_Z (b * k);
     decomposition := fun op =>
       [ {| op_name := "RZ"; op_num_params := 1; op_grad_method := Some "A"%string;
            op_inverse := false; op_is_Rot := false; op_wires := op_wires op |};
         {| op_name := "RY"; op_num_params := 1; op_grad_method := Some "A"%string;
            op_inverse := false; op_is_Rot := false; op_wires := op_wires op |};
         {| op_name := "RZ"; op_num_params := 1; op_grad_method := Some "A"%string;
            op_inverse := false; op_is_Rot := false; op_wires := op_wires op |} ] |}.

Definition gate (name : string) (n : nat) (g : option string) (rot : bool) : Operation :=
  {| op_name := name; op_num_params := n; op_grad_method := g;
     op_inverse := false; op_is_Rot := rot; op_wires := [IntWire 0] |}.

(** [RX(a), Rot(b, c, d), PauliX, RX(a)] (the first object is used twice),
    measured through [expval(PauliZ)] and [expval(Hermitian(e))]. *)
Definition example_store : OpStore :=
  [gate "RX" 1 (Some "A"%string) false;
   gate "Rot" 3 (Some "A"%string) true;
   gate "PauliX" 0 None false].

Definition example_par_info : gmap Z ParInfo :=
  list_to_map
    [(0, {| par_op_name := "RX"; par_op_has_return_type := false |});
     (1, {| par_op_name := "Rot"; par_op_has_return_type := false |});
     (2, {| par_op_name := "Rot"; par_op_has_return_type := false |});
     (3, {| par_op_name := "Rot"; par_op_has_return_type := false |});
     (4, {| par_op_name := "RX"; par_op_has_return_type := false |});
     (5, {| par_op_name := "Hermitian"; par_op_has_return_type := true |})].

Definition example_tape (ms : list Measurement) : Tape Q :=
  {| measurements := ms;
     observables := [observable_of "PauliZ" (Some Expectation) 0;
                     observable_of "Hermitian" (Some Expectation) 0];
     operations := [0; 1; 2; 0]%nat;
     trainable_params := [0; 2; 4; 5];
     _par_info := example_par_info;
     operation_parameters := [1; 2; 3; 4; 5]%Q |}.

Definition expval_of (name : string) : Measurement :=
  {| m_return_type := Expectation; m_obs_name := name |}.

Definition variance_of (name : string) : Measurement :=
  {| m_return_type := Variance; m_obs_name := name |}.

(** The outcome of the adjoint method on the example tape, started on
    the example store with a fresh forward pass. *)
Definition example_adjoint_result : AdjointResult Q :=
  Eval vm_compute in
    match adjoint_jacobian (counting_backend None)
            (example_tape [expval_of "PauliZ"; expval_of "Hermitian"])
            example_store None false with
    | Ok res => res
    | Raise _ => {| returned_jac := {| shape := (O, O); entries := [] |};
                    warnings := []; store_after := [] |}
    end.

(** The estimate that the three-wire device computes from the four
    shots: state [001] twice, states [011] and [111] once each. *)
Definition four_shots_estimate : list Q :=
  [0; 1 # 2; 0; 1 # 4; 0; 0; 0; 1 # 4]%Q.

(** A three-wire device with three shots whose random draw yields the
    basis states 5, 2 and 7. *)
Definition drawing_device : QubitDevice Q :=
  {| wires := [IntWire 0; IntWire 1; IntWire 2];
     shots := Some 3;
     _samples := None;
     analytic_probability := uniform_probability 3;
     random_choice := fun _ _ _ => Ok [5; 2; 7] |}.

(** A probability vector over three wires with pairwise distinct
    entries, and its marginal on the wires 2 and 0, in this order. *)
Definition eight_entries : list Q := map inject_Z (arange 8).

Definition eight_entries_marginal : list Q :=
  Eval vm_compute in
    match marginal_prob (three_wire_device None None) eight_entries
            (Some [IntWire 2; IntWire 0]) with
    | Ok out => out
    | Raise _ => []
    end.

(** [QubitUnitary(U), PauliX] measured through [expval(PauliZ)]: no
    operation has a gradient method, the parameter of the unitary is
    marked trainable. *)
Definition gradient_free_store : OpStore :=
  [gate "QubitUnitary" 1 None false; gate "PauliX" 0 None false].

Definition gradient_free_tape : Tape Q :=
  {| measurements := [expval_of "PauliZ"];
     observables := [observable_of "PauliZ" (Some Expectation) 0];
     operations := [0; 1]%nat;
     trainable_params := [0];
     _par_info := list_to_map
                    [(0, {| par_op_name := "QubitUnitary";
                            par_op_has_return_type := false |})];
     operation_parameters := [1]%Q |}.

Definition gradient_free_result : AdjointResult Q :=
  Eval vm_compute in
    match adjoint_jacobian (counting_backend None) gradient_free_tape
            gradient_free_store None false with
    | Ok res => res
    | Raise _ => {| returned_jac := {| shape := (O, O); entries := [] |};
                    warnings := []; store_after := [] |}
    end.

(** ** Further methods of the device *)

(** [QubitDevice._scatter(indices, array, new_dimensions)] for an integer
    [new_dimensions]: a zero vector into which [array] is written at
    [indices].  numpy refuses a negative dimension, and broadcasts
    [array] to the shape of [indices] (equal lengths, or one element for
    all indices). *)
Definition broadcast_to {A} (array : list A) (n : nat) : Res (list A) :=
  if (length array =? n)%nat then Ok array
  else match array with
       | [x] => Ok (replicate n x)
       | _ => Raise ValueError
       end.

Definition _scatter {F} `{NumericBackend F}
    (indices : list Z) (array : list F) (new_dimensions : Z) : Res (list F) :=
  new_array ← (if new_dimensions <? 0 then Raise ValueError else np_zeros new_dimensions);
  values ← broadcast_to array (length indices);
  foldlM (fun a iv => set_item a (fst iv) (snd iv)) new_array (zip indices values).

(** [reset(self)]: the sample buffer is dropped. *)
Definition reset {F} (self : QubitDevice F) : QubitDevice F :=
  {| wires := wires self;
     shots := shots self;
     _samples := None;
     analytic_probability := analytic_probability self;
     random_choice := random_choice self |}.

(** [lst[i] for i in positions]. *)
Definition pick {A} (lst : list A) (positions : list nat) : Res (list A) :=
  mapM (fun i => match lst !! i with
                 | Some x => Ok x
                 | None => Raise IndexError
                 end) positions.

(** [self.order_wires(subset_wires)].  Modelled from the spec: the method
    is declared in [pennylane/_device.py]; section 4.2 gives it as the
    elements of the subset reordered to match their position in the
    device's wire order (a stable sort by device index).  A label that is
    not a device wire is rejected as [map_wires] rejects it. *)
Definition order_wires (device_wires subset : list WireLabel) : Res (list WireLabel) :=
  mapped ← map_wires device_wires subset;
  pick subset (argsort mapped).

(** [_permute_wires(self, observable)], on the observable's wires. *)
Definition _permute_wires {F} (self : QubitDevice F) (observable_wires : list WireLabel)
  : Res (list WireLabel) :=
  ordered_obs_wire_lst ← order_wires (wires self) observable_wires;
  mapped_wires ← map_wires (wires self) observable_wires;
  let permutation := argsort mapped_wires in
  permuted ← pick ordered_obs_wire_lst permutation;
  Wires permuted.

(** What [sample] reads of an observable: its name when that is a string
    (a tensor product carries a list of names), its wires, whether it is a
    bare [MeasurementProcess], and [observable.eigvals()], which may
    raise. *)
Record SampledObservable (F : Type) : Type := {
  so_name : option string;
  so_wires : list WireLabel;
  so_is_measurement_process : bool;
  so_eigvals : Res (list F)
}.
Arguments so_name {F} _.
Arguments so_wires {F} _.
Arguments so_is_measurement_process {F} _.
Arguments so_eigvals {F} _.

(** The arrays [sample] returns: integer outcomes or eigenvalues, one- or
    two-dimensional. *)
Inductive Samples (F : Type) : Type :=
| IntVector (v : list Z)
| IntMatrix (m : list (list Z))
| EigVector (v : list F)
| EigMatrix (m : list (list F)).
Arguments IntVector {F} v.
Arguments IntMatrix {F} m.
Arguments EigVector {F} v.
Arguments EigMatrix {F} m.

(** [samples.reshape((bin_size, -1))]. *)
Definition reshape_samples {F} (samples : Samples F) (bin_size : Z) : Res (Samples F) :=
  match samples with
  | IntVector v => m ← reshape_bins v bin_size; Ok (IntMatrix m)
  | IntMatrix rows => m ← reshape_bins (concat rows) bin_size; Ok (IntMatrix m)
  | EigVector v => m ← reshape_bins v bin_size; Ok (EigMatrix m)
  | EigMatrix rows => m ← reshape_bins (concat rows) bin_size; Ok (EigMatrix m)
  end.

Definition is_pauli_name (name : option string) : bool :=
  match name with
  | Some n => existsb (String.eqb n) ["PauliX"; "PauliY"; "PauliZ"; "Hadamard"]%string
  | None => false
  end.

(** [sample(self, observable, shot_range, bin_size)]. *)
Definition sample_observable {F} (self : QubitDevice F) (observable : SampledObservable F)
    (shot_range : option (Z * Z)) (bin_size : option Z) : Res (Samples F) :=
  device_wires ← map_wires (wires self) (so_wires observable);
  let name := so_name observable in
  samples ←
    (if is_pauli_name name then
       first_wire ← match device_wires with
                    | c :: _ => Ok c
                    | [] => Raise IndexError
                    end;
       buffer ← match _samples self with
                | None => Raise TypeError
                | Some buffer => Ok (select_rows buffer shot_range)
                end;
       column ← mapM (fun row => match row !! first_wire with
                                 | Some x => Ok x
                                 | None => Raise IndexError
                                 end) buffer;
       Ok (IntVector (map (fun b => wrap int64 (1 - wrap int64 (2 * b))) column))
     else if so_is_measurement_process observable then
       buffer ← match _samples self with
                | None => Raise TypeError
                | Some buffer => Ok (select_rows buffer shot_range)
                end;
       if negb (length (so_wires observable) =? 0)%nat
       then rows ← select_columns buffer device_wires; Ok (IntMatrix rows)
       else Ok (IntMatrix buffer)
     else
       buffer ← match _samples self with
                | None => Raise TypeError
                | Some buffer => Ok (select_rows buffer shot_range)
                end;
       rows ← select_columns buffer device_wires;
       let powers_of_two := powers_of_two_desc (length device_wires) in
       let indices := matvec_int64 rows powers_of_two in
       eigvals ← so_eigvals observable;
       values ← gather eigvals indices;
       Ok (EigVector values));
  match bin_size with
  | None => Ok samples
  | Some bin_size => reshape_samples samples bin_size
  end.

(** The loop of [execute] over [self._shot_vector]: the [shot_range] and
    [bin_size] handed to the successive [self.statistics] calls.  A shot
    tuple is [(shots, copies)]; [np.prod(shot_tuple)] and the running sum
    are [int64]. *)
Definition shot_vector_step (acc : Z * list ((Z * Z) * Z)) (shot_tuple : Z * Z)
  : Z * list ((Z * Z) * Z) :=
  let '(s1, calls) := acc in
  let s2 := wrap int64 (s1 + wrap int64 (fst shot_tuple * snd shot_tuple)) in
  (s2, calls ++ [((s1, s2), fst shot_tuple)]).

Definition shot_vector_calls (shot_vector : list (Z * Z)) : list ((Z * Z) * Z) :=
  snd (fold_left shot_vector_step shot_vector (0, [])).

(** Whether a list of wire labels is free of duplicates and lies on the
    device. *)
Definition valid_wires (device_wires ws : list WireLabel) : bool :=
  negb (has_duplicates ws) && forallb (fun w => wire_in w device_wires) ws.





(* ================================================================== *)
(** * Properties *)

Example states_to_binary_5 : states_to_binary [5; 2] 3 int64 = [[1; 0; 1]; [0; 1; 0]].
Proof. reflexivity. Qed.

Example generate_basis_states_2 :
  generate_basis_states 2 uint32 = Ok [[0; 0]; [0; 1]; [1; 0]; [1; 1]].
Proof. reflexivity. Qed.

Example generate_basis_states_3 :
  generate_basis_states 3 uint32 = basis_states_product 3.
Proof. reflexivity. Qed.

Example generate_basis_states_0 : generate_basis_states 0 uint32 = Raise ValueError.
Proof. reflexivity. Qed.

Example roundtrip_64 :
  matvec_int64 (states_to_binary [2 ^ 63] 64 int64) (powers_of_two_desc 64) = [- 2 ^ 63].
Proof. vm_compute. reflexivity. Qed.

(** ** Fixed-width arithmetic *)

Lemma pow2_split (b : Z) : 0 < b -> 2 ^ b = 2 * 2 ^ (b - 1).
Proof.
  intros Hb. replace b with (Z.succ (b - 1)) at 1 by lia.
  rewrite Z.pow_succ_r by lia. reflexivity.
Qed.

Lemma wrap_small (d : Dtype) (z : Z) :
  0 < bits d -> 0 <= z < 2 ^ (bits d - 1) -> wrap d z = z.
Proof.
  intros Hb Hz. unfold wrap.
  pose proof (pow2_split (bits d) Hb) as Hp.
  destruct (signed d).
  - rewrite Z.mod_small by lia. lia.
  - apply Z.mod_small. lia.
Qed.

Lemma land_pow2 (s j : Z) :
  0 <= j -> Z.land s (2 ^ j) = if Z.testbit s j then 2 ^ j else 0.
Proof.
  intros Hj. apply Z.bits_inj'. intros k Hk.
  rewrite Z.land_spec, Z.pow2_bits_eqb by lia.
  destruct (Z.eqb_spec j k) as [->|Hne].
  - destruct (Z.testbit s k) eqn:E; simpl.
    + rewrite Z.pow2_bits_true by lia. reflexivity.
    + rewrite Z.bits_0. reflexivity.
  - rewrite andb_false_r.
    destruct (Z.testbit s j).
    + rewrite Z.pow2_bits_false by lia. reflexivity.
    + rewrite Z.bits_0. reflexivity.
Qed.

Lemma land_pow2_pos (s j : Z) :
  0 <= j -> (if 0 <? Z.land s (2 ^ j) then 1 else 0) = Z.b2z (Z.testbit s j).
Proof.
  intros Hj. rewrite land_pow2 by lia.
  destruct (Z.testbit s j); simpl.
  - destruct (Z.ltb_spec 0 (2 ^ j)); [reflexivity|].
    pose proof (Z.pow_pos_nonneg 2 j). lia.
  - reflexivity.
Qed.

(** ** Ranges *)

Lemma arange_of_nat (n : nat) : arange (Z.of_nat n) = map Z.of_nat (seq 0 n).
Proof. unfold arange. rewrite Nat2Z.id. reflexivity. Qed.

Lemma arange_S (n : nat) :
  arange (Z.of_nat (S n)) = arange (Z.of_nat n) ++ [Z.of_nat n].
Proof. rewrite !arange_of_nat, seq_S, map_app. reflexivity. Qed.

Lemma arange_S_head (n : nat) :
  arange (Z.of_nat (S n)) = 0 :: map Z.succ (arange (Z.of_nat n)).
Proof.
  rewrite !arange_of_nat. simpl. f_equal.
  rewrite <- seq_shift, !map_map. apply map_ext. intros a. lia.
Qed.

Lemma arange_bounds (n z : Z) : In z (arange n) -> 0 <= z < n.
Proof.
  unfold arange. rewrite in_map_iff. intros (k & <- & Hk).
  apply in_seq in Hk. lia.
Qed.

Lemma map_arange_double {A} (f : Z -> A) (k : nat) :
  map f (arange (2 * Z.of_nat k))
  = flat_map (fun i => [f (2 * i); f (2 * i + 1)]) (arange (Z.of_nat k)).
Proof.
  induction k as [|k IH]; [reflexivity|].
  replace (2 * Z.of_nat (S k)) with (Z.of_nat (S (S (2 * k)))) by lia.
  rewrite !arange_S, !map_app, flat_map_app.
  replace (Z.of_nat (2 * k)) with (2 * Z.of_nat k) by lia.
  rewrite IH. simpl. rewrite <- app_assoc. simpl.
  repeat f_equal; lia.
Qed.

(** ** The bit rows produced by [states_to_binary] *)

Lemma testbits_rev_bits_msb (n : nat) (m : Z) :
  rev (map (fun j => Z.b2z (Z.testbit m j)) (arange (Z.of_nat n))) = bits_msb n m.
Proof.
  revert m. induction n as [|n IH]; intros m; [reflexivity|].
  rewrite arange_S_head. simpl. rewrite map_map.
  rewrite <- Z.bit0_odd, Z.bit0_mod. f_equal.
  rewrite <- IH. f_equal. apply map_ext_in. intros j Hj.
  apply arange_bounds in Hj.
  rewrite Z.div2_bits by lia. reflexivity.
Qed.

Lemma states_to_binary_row (d : Dtype) (n : nat) (s : Z) :
  Z.of_nat n < bits d ->
  rev (map (fun x => if 0 <? x then 1 else 0)
           (map (fun p => Z.land s p) (map (shl1 d) (arange (Z.of_nat n)))))
  = bits_msb n s.
Proof.
  intros Hn. rewrite <- testbits_rev_bits_msb. f_equal.
  rewrite !map_map. apply map_ext_in. intros j Hj.
  apply arange_bounds in Hj. unfold shl1.
  destruct (Z.ltb_spec j (bits d)); [|lia].
  rewrite Z.shiftl_1_l, wrap_small.
  - apply land_pow2_pos. lia.
  - lia.
  - split; [apply Z.pow_nonneg; lia|]. apply Z.pow_lt_mono_r; lia.
Qed.

Lemma states_to_binary_bits (d : Dtype) (n : nat) (samples : list Z) :
  Z.of_nat n < bits d ->
  states_to_binary samples n d = map (bits_msb n) samples.
Proof.
  intros Hn. unfold states_to_binary. rewrite map_map.
  apply map_ext. intros s. apply states_to_binary_row, Hn.
Qed.

Lemma length_bits_msb (n : nat) (m : Z) : length (bits_msb n m) = n.
Proof.
  revert m. induction n as [|n IH]; intros m; simpl; [reflexivity|].
  rewrite length_app, IH. simpl. lia.
Qed.

(** ** The product enumeration *)

Lemma itertools_product_S {A} (pool : list A) (n : nat) :
  itertools_product pool (S n)
  = flat_map (fun x => map (fun y => x ++ [y]) pool) (itertools_product pool n).
Proof.
  unfold itertools_product.
  replace (replicate (S n) pool) with (replicate n pool ++ [pool]).
  - rewrite fold_left_app. reflexivity.
  - clear. induction n as [|n IH]; [reflexivity|]. simpl. rewrite IH. reflexivity.
Qed.

Lemma pow2_of_nat (n : nat) : 2 ^ Z.of_nat n = Z.of_nat (2 ^ n).
Proof. rewrite Nat2Z.inj_pow. reflexivity. Qed.

Lemma itertools_product_bits (n : nat) :
  itertools_product [0; 1] n = map (bits_msb n) (arange (2 ^ Z.of_nat n)).
Proof.
  induction n as [|n IH]; [reflexivity|].
  rewrite itertools_product_S, IH.
  replace (2 ^ Z.of_nat (S n)) with (2 * Z.of_nat (2 ^ n)).
  2:{ rewrite Nat2Z.inj_succ, Z.pow_succ_r, pow2_of_nat by lia. reflexivity. }
  rewrite map_arange_double, pow2_of_nat, flat_map_concat_map, map_map.
  rewrite <- flat_map_concat_map. apply flat_map_ext. intros i. simpl.
  replace (2 * i / 2) with i by (Z.div_mod_to_equations; lia).
  replace ((2 * i + 1) / 2) with i by (Z.div_mod_to_equations; lia).
  replace (2 * i mod 2) with 0 by (Z.div_mod_to_equations; lia).
  replace ((2 * i + 1) mod 2) with 1 by (Z.div_mod_to_equations; lia).
  reflexivity.
Qed.

Lemma chunk_rows_concat {A} (n : nat) (rows : list (list A)) :
  Forall (fun r => length r = n) rows ->
  chunk_rows (length rows) n (concat rows) = rows.
Proof.
  induction 1 as [|r rows Hr _ IH]; [reflexivity|].
  simpl. subst n. rewrite take_app_length, drop_app_length, IH. reflexivity.
Qed.

Lemma length_concat_rows {A} (n : nat) (rows : list (list A)) :
  Forall (fun r => length r = n) rows ->
  length (concat rows) = (length rows * n)%nat.
Proof.
  induction 1 as [|r rows Hr _ IH]; [reflexivity|].
  simpl. rewrite length_app, IH, Hr. reflexivity.
Qed.

Lemma reshape_rows_concat {A} (n : nat) (rows : list (list A)) :
  (0 < n)%nat -> Forall (fun r => length r = n) rows ->
  reshape_rows (concat rows) n = Ok rows.
Proof.
  intros Hn Hrows. unfold reshape_rows.
  rewrite (length_concat_rows n rows Hrows).
  destruct (Nat.eqb_spec n 0); [lia|].
  rewrite Nat.Div0.mod_mul, Nat.eqb_refl, Nat.div_mul by lia.
  rewrite chunk_rows_concat by assumption. reflexivity.
Qed.

Lemma basis_states_product_bits (n : nat) :
  (0 < n)%nat ->
  basis_states_product n = Ok (map (bits_msb n) (arange (2 ^ Z.of_nat n))).
Proof.
  intros Hn. unfold basis_states_product. simpl.
  rewrite itertools_product_bits. apply reshape_rows_concat; [assumption|].
  apply Forall_forall. intros r Hr.
  apply list_elem_of_In, in_map_iff in Hr. destruct Hr as (m & <- & _).
  apply length_bits_msb.
Qed.

Lemma basis_states_vectorized_bits (d : Dtype) (n : nat) :
  Z.of_nat n < bits d ->
  basis_states_vectorized n d = map (bits_msb n) (arange (2 ^ Z.of_nat n)).
Proof.
  intros Hn. unfold basis_states_vectorized. simpl.
  rewrite states_to_binary_bits by assumption.
  f_equal. rewrite <- (map_id (arange (2 ^ Z.of_nat n))) at 2.
  apply map_ext_in. intros i Hi. apply arange_bounds in Hi.
  apply wrap_small; [lia|].
  split; [lia|]. eapply Z.lt_le_trans; [apply Hi|].
  apply Z.pow_le_mono_r; lia.
Qed.

(** ** Re-encoding bit rows with the big-endian weights *)

Lemma wrap_int64_eq (z : Z) : wrap int64 z = (z + 2 ^ 63) mod 2 ^ 64 - 2 ^ 63.
Proof. reflexivity. Qed.

Lemma wrap_int64_add_r (a b : Z) : wrap int64 (a + wrap int64 b) = wrap int64 (a + b).
Proof.
  rewrite !wrap_int64_eq. f_equal.
  replace (a + ((b + 2 ^ 63) mod 2 ^ 64 - 2 ^ 63) + 2 ^ 63)
    with (a + (b + 2 ^ 63) mod 2 ^ 64) by lia.
  rewrite Z.add_mod_idemp_r by lia. f_equal. lia.
Qed.

Lemma wrap_int64_idem (a : Z) : wrap int64 (wrap int64 a) = wrap int64 a.
Proof. rewrite <- (Z.add_0_l (wrap int64 a)), wrap_int64_add_r. reflexivity. Qed.

Lemma wrap_int64_add_l (a b : Z) : wrap int64 (wrap int64 a + b) = wrap int64 (a + b).
Proof. rewrite Z.add_comm, wrap_int64_add_r. f_equal. lia. Qed.

Lemma wrap_int64_mul_r (a b : Z) : wrap int64 (a * wrap int64 b) = wrap int64 (a * b).
Proof.
  rewrite !wrap_int64_eq. f_equal.
  replace (a * ((b + 2 ^ 63) mod 2 ^ 64 - 2 ^ 63) + 2 ^ 63)
    with (a * ((b + 2 ^ 63) mod 2 ^ 64) + (2 ^ 63 - a * 2 ^ 63)) by lia.
  rewrite <- Z.add_mod_idemp_l, Z.mul_mod_idemp_r, Z.add_mod_idemp_l by lia.
  f_equal. lia.
Qed.

Lemma bits_msb_S_head (n : nat) (i : Z) :
  bits_msb (S n) i = Z.b2z (Z.testbit i (Z.of_nat n)) :: bits_msb n i.
Proof.
  rewrite <- !testbits_rev_bits_msb, arange_S, map_app, rev_app_distr.
  reflexivity.
Qed.

Lemma powers_of_two_desc_S (n : nat) :
  powers_of_two_desc (S n) = pow2_int64 (Z.of_nat n) :: powers_of_two_desc n.
Proof.
  unfold powers_of_two_desc. rewrite arange_S, rev_app_distr. reflexivity.
Qed.

Lemma mod_pow2_succ (i : Z) (n : nat) :
  i mod 2 ^ Z.of_nat (S n)
  = Z.b2z (Z.testbit i (Z.of_nat n)) * 2 ^ Z.of_nat n + i mod 2 ^ Z.of_nat n.
Proof.
  rewrite Nat2Z.inj_succ, Z.pow_succ_r by lia.
  rewrite (Z.mul_comm 2), Z.rem_mul_r by (try apply Z.pow_nonzero; lia).
  rewrite Z.testbit_spec' by lia. lia.
Qed.

Lemma fold_dot_bits_msb (n : nat) (i acc : Z) :
  wrap int64 acc = acc ->
  fold_left (fun acc ab => wrap int64 (acc + wrap int64 (fst ab * snd ab)))
            (combine (bits_msb n i) (powers_of_two_desc n)) acc
  = wrap int64 (acc + i mod 2 ^ Z.of_nat n).
Proof.
  revert acc. induction n as [|n IH]; intros acc Hacc.
  - simpl. rewrite Z.mod_1_r, Z.add_0_r. symmetry. exact Hacc.
  - rewrite bits_msb_S_head, powers_of_two_desc_S. simpl.
    rewrite IH.
    + unfold pow2_int64.
      set (b := Z.b2z (Z.testbit i (Z.of_nat n))).
      set (r := i mod 2 ^ Z.of_nat n).
      rewrite wrap_int64_add_l.
      replace (acc + wrap int64 (b * wrap int64 (2 ^ Z.of_nat n)) + r)
        with (acc + r + wrap int64 (b * wrap int64 (2 ^ Z.of_nat n))) by lia.
      rewrite wrap_int64_add_r, <- wrap_int64_add_r, wrap_int64_mul_r, wrap_int64_add_r.
      f_equal. rewrite mod_pow2_succ. subst b r. lia.
    + apply wrap_int64_idem.
Qed.

Lemma dot_int64_bits_msb (n : nat) (i : Z) :
  dot_int64 (bits_msb n i) (powers_of_two_desc n) = wrap int64 (i mod 2 ^ Z.of_nat n).
Proof. unfold dot_int64. rewrite fold_dot_bits_msb; reflexivity. Qed.

Lemma testbit_above (s j : Z) : 0 <= s < 2 ^ j -> 0 <= j -> Z.testbit s j = false.
Proof.
  intros Hs Hj. rewrite <- (Z.mod_small s (2 ^ j)) by lia.
  apply Z.mod_pow2_bits_high. lia.
Qed.

Lemma land_sign_bit_int64 (s : Z) : 0 <= s < 2 ^ 63 -> Z.land s (- 2 ^ 63) = 0.
Proof.
  intros Hs. change (- 2 ^ 63) with (Z.lnot (Z.ones 63)).
  rewrite <- Z.ldiff_land, Z.ldiff_ones_r by lia.
  rewrite Z.shiftr_div_pow2, Z.div_small by lia. reflexivity.
Qed.

(** For a sample that is an [int64] value, every column of the decoded row
    is the corresponding bit, for any number of wires: the columns at and
    above the sign bit are [0]. *)
Lemma states_to_binary_row_int64 (n : nat) (s : Z) :
  0 <= s < 2 ^ 63 ->
  states_to_binary [s] n int64 = [bits_msb n s].
Proof.
  intros Hs. unfold states_to_binary. simpl. f_equal.
  rewrite <- testbits_rev_bits_msb. f_equal.
  rewrite !map_map. apply map_ext_in. intros j Hj.
  apply arange_bounds in Hj. unfold shl1. simpl bits.
  destruct (Z.ltb_spec j 64) as [Hlt|Hge].
  - destruct (Z.eq_dec j 63) as [->|Hne].
    + change (wrap int64 (Z.shiftl 1 63)) with (- 2 ^ 63).
      rewrite land_sign_bit_int64, testbit_above by lia. reflexivity.
    + rewrite Z.shiftl_1_l, wrap_small.
      * apply land_pow2_pos. lia.
      * simpl. lia.
      * simpl bits. split; [apply Z.pow_nonneg; lia|].
        apply Z.pow_lt_mono_r; lia.
  - rewrite Z.land_0_r, testbit_above; [reflexivity| |lia].
    split; [lia|]. eapply Z.lt_le_trans; [apply Hs|].
    apply Z.pow_le_mono_r; lia.
Qed.

(** ** Sequencing *)

Lemma bind_Ok_inv {A B} (m : Res A) (k : A -> Res B) (b : B) :
  (m ≫= k) = Ok b -> exists a, m = Ok a /\ k a = Ok b.
Proof. destruct m as [a|e]; simpl; intros Hk; [eauto | discriminate]. Qed.

Lemma bind_Ok_l {A B} (a : A) (k : A -> Res B) : (Ok a ≫= k) = k a.
Proof. reflexivity. Qed.

Tactic Notation "inv_bind" hyp(H) :=
  let a := fresh "a" in
  let Ha := fresh "Ha" in
  apply bind_Ok_inv in H; destruct H as (a & Ha & H).

Tactic Notation "inv_bind" hyp(H) "as" simple_intropattern(a) ident(Ha) :=
  apply bind_Ok_inv in H; destruct H as (a & Ha & H).

Lemma foldlM_app {A B} (f : B -> A -> Res B) (b : B) (l1 l2 : list A) :
  foldlM f b (l1 ++ l2) = (foldlM f b l1 ≫= fun b' => foldlM f b' l2).
Proof.
  revert b. induction l1 as [|x l1 IH]; intros b; simpl; [reflexivity|].
  destruct (f b x) as [b'|e]; simpl; [apply IH | reflexivity].
Qed.

(** ** Probability engine *)

(** C9. On a device in analytic mode ([shots] unset), [probability]
    returns [analytic_probability(wires)] whatever [shot_range] and
    [bin_size] are: the two arguments are ignored on that path. *)
Theorem probability_analytic_ignores_shot_arguments
    {F : Type} `{NumericBackend F} (self : QubitDevice F)
    (wires_arg : option (list WireLabel)) (shot_range : option (Z * Z))
    (bin_size : option Z) :
  shots self = None ->
  probability self wires_arg shot_range bin_size = analytic_probability self wires_arg.
Proof. intros Hshots. unfold probability. rewrite Hshots. reflexivity. Qed.

Lemma probability_analytic_ignores_shot_arguments_witness :
  shots (three_wire_device None None) = None /\
  probability (three_wire_device None None) (Some [IntWire 0]) (Some (0, 5)) (Some 2)
  = analytic_probability (three_wire_device None None) (Some [IntWire 0]).
Proof.
  split; [reflexivity|].
  apply (probability_analytic_ignores_shot_arguments
           (three_wire_device None None) (Some [IntWire 0]) (Some (0, 5)) (Some 2)).
  reflexivity.
Defined.

(** C6, at an empty wire collection. [marginal_prob] does not return
    [prob] there but raises [ValueError]: only [None] takes the early
    return, so every device wire is summed out and the enumeration of
    basis states over zero wires cannot be reshaped.  The docstring of the
    method and [estimate_probability] ([wires or self.wires]) treat an
    empty collection like an unset one. *)
Lemma marginal_prob_empty_wires_counterexample :
  marginal_prob (three_wire_device None None)
                (map inject_Z [1; 0; 0; 0; 0; 0; 0; 0]) (Some [])
  = Raise ValueError
  /\ marginal_prob (three_wire_device None None)
                   (map inject_Z [1; 0; 0; 0; 0; 0; 0; 0]) (Some [])
     <> Ok (map inject_Z [1; 0; 0; 0; 0; 0; 0; 0]).
Proof. split; [vm_compute; reflexivity | vm_compute; discriminate]. Qed.

(** C6, the unset case. [marginal_prob(prob, wires)] returns [prob]
    unchanged whenever [wires] is unset ([None]). *)
Theorem marginal_prob_unset_wires_identity
    {F : Type} `{NumericBackend F} (self : QubitDevice F) (prob : list F) :
  marginal_prob self prob None = Ok prob.
Proof. reflexivity. Qed.

(** C8 (as stated). On a device without shots and without a sample
    buffer, [estimate_probability] fails on the missing samples with a
    [TypeError], not with the shots-required error; with a buffer left
    from an earlier run it computes. *)
Lemma estimate_probability_shots_required_counterexample :
  shots (three_wire_device None None) = None
  /\ estimate_probability (three_wire_device None None) None None None = Raise TypeError
  /\ estimate_probability (three_wire_device None None) None None None
     <> Raise (QuantumFunctionError ShotsRequired)
  /\ is_Ok (estimate_probability (three_wire_device None (Some four_shots)) None None None)
     = true.
Proof.
  split; [reflexivity|]. split; [vm_compute; reflexivity|].
  split; [vm_compute; discriminate | vm_compute; reflexivity].
Qed.

Lemma mapM_wire_error_or_ok (device_wires ws : list WireLabel) :
  (exists l, map_wires device_wires ws = Ok l) \/ map_wires device_wires ws = Raise WireError.
Proof.
  unfold map_wires. induction ws as [|w ws IH]; simpl; [left; eauto|].
  destruct (index_of w device_wires) as [i|]; simpl; [|right; reflexivity].
  destruct IH as [[l ->]| ->]; simpl; [left; eauto | right; reflexivity].
Qed.

(** C8 (amended). On a device with no configured shot count,
    [sample_basis_states] fails with the shots-required error.
    [estimate_probability] makes no shot check of its own: its result is
    the same whatever [shots] is set to, and without a sample buffer it
    fails with [TypeError] on the missing samples (or with [WireError]
    when the requested wires are not valid device wires). *)
Theorem estimate_probability_makes_no_shots_check
    {F : Type} `{NumericBackend F} (self : QubitDevice F)
    (wires_arg : option (list WireLabel)) (shot_range : option (Z * Z))
    (bin_size : option Z) :
  shots self = None ->
  (forall n p, sample_basis_states self n p = Raise (QuantumFunctionError ShotsRequired))
  /\ (forall value,
        estimate_probability (with_shots self value) wires_arg shot_range bin_size
        = estimate_probability self wires_arg shot_range bin_size)
  /\ (_samples self = None ->
      estimate_probability self wires_arg shot_range bin_size = Raise TypeError
      \/ estimate_probability self wires_arg shot_range bin_size = Raise WireError).
Proof.
  intros Hshots. split; [|split].
  - intros n p. unfold sample_basis_states. rewrite Hshots. reflexivity.
  - intros value. reflexivity.
  - intros Hbuf. unfold estimate_probability. rewrite Hbuf.
    unfold Wires. destruct (has_duplicates _); [right; reflexivity|].
    rewrite bind_Ok_l.
    destruct (mapM_wire_error_or_ok (wires self) (wires_or_self self wires_arg))
      as [[l ->]| ->]; [left | right]; reflexivity.
Qed.

Lemma estimate_probability_makes_no_shots_check_witness :
  shots (three_wire_device None None) = None
  /\ ((forall n p, sample_basis_states (three_wire_device None None) n p
                   = Raise (QuantumFunctionError ShotsRequired))
      /\ (forall value,
            estimate_probability (with_shots (three_wire_device None None) value)
                                 (Some [IntWire 1]) None (Some 2)
            = estimate_probability (three_wire_device None None) (Some [IntWire 1]) None (Some 2))
      /\ (_samples (three_wire_device None None) = None ->
          estimate_probability (three_wire_device None None) (Some [IntWire 1]) None (Some 2)
          = Raise TypeError
          \/ estimate_probability (three_wire_device None None) (Some [IntWire 1]) None (Some 2)
             = Raise WireError)).
Proof.
  split; [reflexivity|].
  apply (estimate_probability_makes_no_shots_check
           (three_wire_device None None) (Some [IntWire 1]) None (Some 2)).
  reflexivity.
Defined.

(** ** Statistics dispatcher *)

Section StatisticsFacts.
Context {F R : Type}.
Variable self : StatisticsDevice F R.
Variable observables : list (Observable F).
Variable shot_range : option (Z * Z).
Variable bin_size : option Z.

Local Abbreviation step := (statistics_step self observables shot_range bin_size).

(** One pass of the loop body either leaves [results] alone (no return
    type) or appends exactly the entry it would append to an empty
    list. *)
Lemma statistics_step_appends (results results' : list R) (obs : Observable F) :
  step results obs = Ok results' ->
  (has_return_type obs = false /\ results' = results)
  \/ (has_return_type obs = true
      /\ exists r, results' = results ++ [r] /\ step [] obs = Ok [r]).
Proof.
  unfold statistics_step, has_return_type.
  destruct (return_type obs) as [rt|]; [|intros [= <-]; left; auto].
  intros Hstep. right. split; [reflexivity|].
  destruct rt; try discriminate;
    repeat match type of Hstep with
           | (if ?c then _ else _) = Ok _ => destruct c; try discriminate
           | match ?l with [] => _ | _ :: _ => _ end = Ok _ =>
               destruct l; try discriminate
           end;
    inv_bind Hstep; injection Hstep as <-;
    rewrite Ha; simpl; eauto.
Qed.

Lemma statistics_loop_entries (l : list (Observable F)) (acc results : list R) :
  foldlM step acc l = Ok results ->
  exists rs, results = acc ++ rs
             /\ Forall2 (fun obs r => step [] obs = Ok [r]) (List.filter has_return_type l) rs.
Proof.
  revert acc. induction l as [|obs l IH]; intros acc Hloop; simpl in Hloop.
  - injection Hloop as <-. exists []. rewrite app_nil_r. split; [reflexivity|constructor].
  - inv_bind Hloop. apply statistics_step_appends in Ha.
    destruct (IH _ Hloop) as (rs & -> & Hrs). simpl.
    destruct Ha as [[-> ->]|(-> & r & -> & Hr)].
    + exists rs. auto.
    + exists (r :: rs). rewrite <- app_assoc. split; [reflexivity|].
      constructor; assumption.
Qed.
End StatisticsFacts.

(** C7 (as stated). An observable without return type is skipped: three
    requested observables yield two entries. *)
Lemma statistics_one_entry_per_observable_counterexample :
  statistics tagging_device three_observables None None = Ok [1; 2]
  /\ length three_observables = 3%nat.
Proof. split; reflexivity. Qed.

(** C7 (amended). When [statistics] returns, the result list holds
    exactly one entry per requested observable that declares a return
    type, in the order of the input list, each entry being the one the
    dispatcher computes for that observable; observables without return
    type contribute no entry; in particular there is one entry per
    observable when every observable declares a return type. *)
Theorem statistics_one_entry_per_declared_return_type
    {F R : Type} (self : StatisticsDevice F R) (observables : list (Observable F))
    (shot_range : option (Z * Z)) (bin_size : option Z) (results : list R) :
  statistics self observables shot_range bin_size = Ok results ->
  Forall2 (fun obs r => statistics_step self observables shot_range bin_size [] obs = Ok [r])
          (List.filter has_return_type observables) results
  /\ length results = length (List.filter has_return_type observables)
  /\ (forallb has_return_type observables = true -> length results = length observables).
Proof.
  intros Hstat. unfold statistics in Hstat.
  apply statistics_loop_entries in Hstat. destruct Hstat as (rs & -> & Hrs).
  simpl. split; [exact Hrs|]. split.
  - symmetry. eapply Forall2_length, Hrs.
  - intros Hall. rewrite <- (Forall2_length _ _ _ Hrs).
    f_equal. clear Hrs. induction observables as [|o l IH]; [reflexivity|].
    simpl in *. apply andb_prop in Hall. destruct Hall as [-> Hl].
    f_equal. apply IH, Hl.
Qed.

Lemma statistics_one_entry_per_declared_return_type_witness :
  Forall2 (fun obs r => statistics_step tagging_device three_observables None None [] obs
                        = Ok [r])
          (List.filter has_return_type three_observables) [1; 2]
  /\ length [1; 2] = length (List.filter has_return_type three_observables)
  /\ (forallb has_return_type three_observables = true ->
      length [1; 2] = length three_observables).
Proof.
  apply (statistics_one_entry_per_declared_return_type
           tagging_device three_observables None None [1; 2]).
  reflexivity.
Defined.

(** ** Adjoint Jacobian: preconditions *)

Lemma check_measurements_expectations (ms : list Measurement) :
  Forall (fun m => m_return_type m = Expectation) ms ->
  check_measurements ms
  = if existsb (fun m => String.eqb (m_obs_name m) "Hamiltonian") ms
    then Raise (QuantumFunctionError UnsupportedHamiltonianObservable)
    else Ok tt.
Proof.
  unfold check_measurements.
  induction 1 as [|m ms Hm _ IH]; [reflexivity|].
  cbn [foldlM existsb].
  replace (check_measurement m)
    with (if String.eqb (m_obs_name m) "Hamiltonian"
          then Raise (QuantumFunctionError UnsupportedHamiltonianObservable)
          else Ok tt : Res unit)
    by (unfold check_measurement; rewrite Hm; reflexivity).
  destruct (String.eqb (m_obs_name m) "Hamiltonian"); [reflexivity|].
  rewrite bind_Ok_l. exact IH.
Qed.

Lemma check_measurements_first_offender (pre post : list Measurement) (m : Measurement) :
  Forall (fun m' => m_return_type m' = Expectation) pre ->
  m_return_type m <> Expectation ->
  check_measurements (pre ++ m :: post)
  = Raise (QuantumFunctionError
             (if existsb (fun m' => String.eqb (m_obs_name m') "Hamiltonian") pre
              then UnsupportedHamiltonianObservable
              else UnsupportedGradientMeasurement (m_return_type m))).
Proof.
  intros Hpre Hm. unfold check_measurements. rewrite foldlM_app.
  fold (check_measurements pre). rewrite check_measurements_expectations by assumption.
  destruct (existsb _ pre); [reflexivity|].
  rewrite bind_Ok_l. cbn [foldlM]. unfold check_measurement.
  destruct (m_return_type m); try reflexivity. contradiction.
Qed.

Lemma first_non_expectation (ms : list Measurement) :
  Exists (fun m => m_return_type m <> Expectation) ms ->
  exists pre m post,
    ms = pre ++ m :: post
    /\ Forall (fun m' => m_return_type m' = Expectation) pre
    /\ m_return_type m <> Expectation.
Proof.
  induction 1 as [m ms Hm | m ms _ IH].
  - exists [], m, ms. auto.
  - destruct (is_Expectation (m_return_type m)) eqn:E.
    + destruct IH as (pre & m' & post & -> & Hpre & Hm').
      exists (m :: pre), m', post. split; [reflexivity|]. split; [|assumption].
      constructor; [|assumption]. destruct (m_return_type m); try discriminate; reflexivity.
    + exists [], m, ms. split; [reflexivity|]. split; [constructor|].
      intros Heq. rewrite Heq in E. discriminate.
Qed.

(** C1 (as stated). A tape whose first measurement is the expectation
    value of a Hamiltonian and whose second is a variance fails with the
    Hamiltonian-observable error, not with the unsupported-measurement
    error. *)
Lemma adjoint_non_expectation_error_counterexample :
  Exists (fun m => m_return_type m <> Expectation)
         (measurements (example_tape [expval_of "Hamiltonian"; variance_of "PauliZ"]))
  /\ adjoint_jacobian (counting_backend None)
       (example_tape [expval_of "Hamiltonian"; variance_of "PauliZ"])
       example_store None false
     = Raise (QuantumFunctionError UnsupportedHamiltonianObservable)
  /\ forall rt,
       adjoint_jacobian (counting_backend None)
         (example_tape [expval_of "Hamiltonian"; variance_of "PauliZ"])
         example_store None false
       <> Raise (QuantumFunctionError (UnsupportedGradientMeasurement rt)).
Proof.
  split; [|split].
  - apply Exists_cons_tl, Exists_cons_hd. discriminate.
  - reflexivity.
  - intros rt. discriminate.
Qed.

(** C1 (amended). A tape that contains a measurement whose return type
    is not Expectation makes [adjoint_jacobian] fail, and no Jacobian is
    returned.  The error is the unsupported-gradient-measurement error
    for the first such measurement, unless one of the expectation
    measurements before it has a Hamiltonian observable, in which case it
    is the Hamiltonian-observable error. *)
Theorem adjoint_rejects_non_expectation
    {F St Mx : Type} `{NumericBackend F} (self : AdjointDevice F St Mx)
    (tape : Tape F) (store0 : OpStore) (starting_state : option St)
    (use_device_state : bool) :
  Exists (fun m => m_return_type m <> Expectation) (measurements tape) ->
  exists pre m post,
    measurements tape = pre ++ m :: post
    /\ Forall (fun m' => m_return_type m' = Expectation) pre
    /\ m_return_type m <> Expectation
    /\ adjoint_jacobian self tape store0 starting_state use_device_state
       = Raise (QuantumFunctionError
                  (if existsb (fun m' => String.eqb (m_obs_name m') "Hamiltonian") pre
                   then UnsupportedHamiltonianObservable
                   else UnsupportedGradientMeasurement (m_return_type m))).
Proof.
  intros Hex. destruct (first_non_expectation _ Hex) as (pre & m & post & Hms & Hpre & Hm).
  exists pre, m, post. repeat split; try assumption.
  unfold adjoint_jacobian. rewrite Hms.
  rewrite check_measurements_first_offender by assumption. reflexivity.
Qed.

Lemma adjoint_rejects_non_expectation_witness :
  exists pre m post,
    measurements (example_tape [expval_of "PauliZ"; variance_of "PauliZ"]) = pre ++ m :: post
    /\ Forall (fun m' => m_return_type m' = Expectation) pre
    /\ m_return_type m <> Expectation
    /\ adjoint_jacobian (counting_backend None)
         (example_tape [expval_of "PauliZ"; variance_of "PauliZ"]) example_store None false
       = Raise (QuantumFunctionError
                  (if existsb (fun m' => String.eqb (m_obs_name m') "Hamiltonian") pre
                   then UnsupportedHamiltonianObservable
                   else UnsupportedGradientMeasurement (m_return_type m))).
Proof.
  apply (adjoint_rejects_non_expectation (counting_backend None)
           (example_tape [expval_of "PauliZ"; variance_of "PauliZ"]) example_store None false).
  apply Exists_cons_tl, Exists_cons_hd. discriminate.
Defined.

(** ** Adjoint Jacobian: the walk *)

Lemma inv_involutive (op : Operation) : inv (inv op) = op.
Proof. destruct op. unfold inv. simpl. rewrite negb_involutive. reflexivity. Qed.

Lemma alter_inv_twice (store : OpStore) (r : nat) :
  alter inv r (alter inv r store) = store.
Proof. rewrite list_alter_alter_eq. apply list_alter_id. intros op. apply inv_involutive. Qed.

Section AdjointFacts.
Context {F St Mx : Type} `{NumericBackend F}.
Variable self : AdjointDevice F St Mx.

Lemma np_zeros_matrix_wf (rows cols : nat) : matrix_wf (np_zeros_matrix rows cols).
Proof.
  split; simpl.
  - apply length_replicate.
  - apply Forall_replicate, length_replicate.
Qed.

Lemma set_column_shape (m m' : Matrix F) (t : Z) (column : list F) :
  set_column m t column = Ok m' ->
  shape m' = shape m /\ (matrix_wf m -> matrix_wf m').
Proof.
  unfold set_column. intros Hset. inv_bind Hset.
  destruct (Nat.eqb_spec (length column) (fst (shape m))) as [Hlen|]; [|discriminate].
  simpl in Hset. injection Hset as <-. simpl. split; [reflexivity|].
  intros [Hrows Hcols]. split; simpl.
  - rewrite length_zip_with_l_eq; lia.
  - eapply Forall_zip_with_fst; [exact Hcols|].
    apply Forall_forall. intros v _ row Hrow. rewrite length_insert. exact Hrow.
Qed.

(** One iteration of the walk inverts the operation twice: the store is
    left as it was, and the Jacobian keeps its shape. *)
Lemma walk_step_frame (tp : list Z) (st st' : WalkState F St Mx) (r : nat) :
  walk_step self tp st r = Ok st' ->
  store st' = store st
  /\ shape (jac st') = shape (jac st)
  /\ (matrix_wf (jac st) -> matrix_wf (jac st')).
Proof.
  unfold walk_step. intros Hstep.
  inv_bind Hstep as op Hop.
  inv_bind Hstep as d Hd.
  inv_bind Hstep as op' Hop'.
  inv_bind Hstep as ket' Hket.
  inv_bind Hstep as [[jac' tpn'] pn'] Hjac.
  inv_bind Hstep as bras' Hbras.
  injection Hstep as <-. simpl.
  split; [apply alter_inv_twice|].
  clear Hbras Hket Hd Hop. revert Hjac.
  destruct (bool_decide (op_grad_method op' ≠ None)); [|intros [= <- _ _]; auto].
  intros Hjac. inv_bind Hjac as [jac2 tpn2] Hcol.
  injection Hjac as <- _ _.
  destruct (bool_decide (param_number st ∈ tp)); [|injection Hcol as <- _; auto].
  destruct d as [d|]; [|discriminate].
  inv_bind Hcol as ket_temp Htemp. inv_bind Hcol as jac3 Hset.
  injection Hcol as <- _.
  apply set_column_shape in Hset. exact Hset.
Qed.

Lemma walk_frame (tp : list Z) (refs : list nat) (st st' : WalkState F St Mx) :
  foldlM (walk_step self tp) st refs = Ok st' ->
  store st' = store st
  /\ shape (jac st') = shape (jac st)
  /\ (matrix_wf (jac st) -> matrix_wf (jac st')).
Proof.
  revert st. induction refs as [|r refs IH]; intros st Hwalk; simpl in Hwalk.
  - injection Hwalk as <-. auto.
  - inv_bind Hwalk. apply walk_step_frame in Ha.
    destruct Ha as (Hs & Hsh & Hwf).
    destruct (IH _ Hwalk) as (Hs' & Hsh' & Hwf').
    split; [congruence|]. split; [congruence|]. auto.
Qed.

(** Expansion only appends the objects created by decompositions. *)
Lemma expand_step_extends (acc acc' : list nat * OpStore) (r : nat) :
  expand_step self acc r = Ok acc' -> exists extra, snd acc' = snd acc ++ extra.
Proof.
  destruct acc as [expanded store0]. unfold expand_step. intros Hstep.
  inv_bind Hstep.
  destruct (1 <? op_num_params a)%nat.
  - destruct (op_is_Rot a && negb (op_inverse a)); [|discriminate].
    injection Hstep as <-. simpl. eauto.
  - destruct (existsb _ _); injection Hstep as <-; exists []; simpl;
      rewrite app_nil_r; reflexivity.
Qed.

Lemma expand_operations_extends (refs : list nat) (acc acc' : list nat * OpStore) :
  foldlM (expand_step self) acc refs = Ok acc' -> exists extra, snd acc' = snd acc ++ extra.
Proof.
  revert acc. induction refs as [|r refs IH]; intros acc Hexp; simpl in Hexp.
  - injection Hexp as <-. exists []. rewrite app_nil_r. reflexivity.
  - inv_bind Hexp. apply expand_step_extends in Ha. destruct Ha as [e1 He1].
    destruct (IH _ Hexp) as [e2 He2]. exists (e1 ++ e2).
    rewrite He2, He1, app_assoc. reflexivity.
Qed.

Lemma select_trainable_loop (par_info : gmap Z ParInfo) (ks : list Z)
    (acc acc' : list Z * list Warning) :
  foldlM (trainable_step par_info) acc ks = Ok acc' ->
  fst acc' = fst acc ++ List.filter (fun k => negb (belongs_to_observable par_info k)) ks
  /\ snd acc' = snd acc ++ observable_parameter_warnings par_info ks.
Proof.
  revert acc. induction ks as [|k ks IH]; intros [tp ws] Hsel; simpl in Hsel.
  - injection Hsel as <-. simpl. rewrite !app_nil_r. auto.
  - inv_bind Hsel. unfold trainable_step in Ha.
    unfold observable_parameter_warnings. simpl. unfold belongs_to_observable at 1.
    destruct (par_info !! k) as [info|]; [|discriminate].
    destruct (par_op_has_return_type info); injection Ha as <-;
      apply IH in Hsel; simpl in Hsel; destruct Hsel as [-> ->]; simpl;
      rewrite <- ?app_assoc; auto.
Qed.

(** What a successful call establishes. *)
Lemma adjoint_jacobian_success (tape : Tape F) (store0 : OpStore)
    (starting_state : option St) (use_device_state : bool) (res : AdjointResult F) :
  adjoint_jacobian self tape store0 starting_state use_device_state = Ok res ->
  (exists extra, store_after res = store0 ++ extra)
  /\ shape (returned_jac res)
     = (length (observables tape),
        length (List.filter (fun k => negb (belongs_to_observable (_par_info tape) k))
                            (trainable_params tape)))
  /\ matrix_wf (returned_jac res)
  /\ warnings res
     = match ad_shots self with
       | Some _ => [FiniteShotsAdjointWarning]
       | None => []
       end ++ observable_parameter_warnings (_par_info tape) (trainable_params tape).
Proof.
  unfold adjoint_jacobian. intros Hadj.
  inv_bind Hadj as u Hcheck.
  inv_bind Hadj as ket0 Hket.
  inv_bind Hadj as bras0 Hbras.
  inv_bind Hadj as [expanded store1] Hexp.
  inv_bind Hadj as [tp ws] Hsel.
  inv_bind Hadj as final Hwalk.
  injection Hadj as <-. simpl.
  apply expand_operations_extends in Hexp. simpl in Hexp.
  apply select_trainable_loop in Hsel. simpl in Hsel. destruct Hsel as [-> ->].
  apply walk_frame in Hwalk. simpl in Hwalk. destruct Hwalk as (-> & -> & Hwf).
  repeat split; try assumption; try reflexivity.
  all: apply Hwf, np_zeros_matrix_wf.
Qed.
End AdjointFacts.

(** C2. When [adjoint_jacobian] succeeds, the returned Jacobian is a
    two-dimensional array of floats of shape (number of tape observables,
    number of trainable parameters), the trainable parameters being those
    of [tape.trainable_params] that do not belong to an observable; each
    excluded parameter gives a warning and no error, and the matrix has
    that many rows and columns. *)
Theorem adjoint_jacobian_shape
    {F St Mx : Type} `{NumericBackend F} (self : AdjointDevice F St Mx)
    (tape : Tape F) (store0 : OpStore) (starting_state : option St)
    (use_device_state : bool) (res : AdjointResult F) :
  adjoint_jacobian self tape store0 starting_state use_device_state = Ok res ->
  let kept := List.filter (fun k => negb (belongs_to_observable (_par_info tape) k))
                          (trainable_params tape) in
  shape (returned_jac res) = (length (observables tape), length kept)
  /\ length (entries (returned_jac res)) = length (observables tape)
  /\ Forall (fun row : list F => length row = length kept) (entries (returned_jac res))
  /\ warnings res
     = match ad_shots self with
       | Some _ => [FiniteShotsAdjointWarning]
       | None => []
       end ++ observable_parameter_warnings (_par_info tape) (trainable_params tape).
Proof.
  intros Hadj kept. apply adjoint_jacobian_success in Hadj.
  destruct Hadj as (_ & Hshape & [Hrows Hcols] & Hwarn).
  rewrite Hshape in Hrows, Hcols. simpl in Hrows, Hcols. auto.
Qed.

Lemma adjoint_jacobian_shape_witness :
  adjoint_jacobian (counting_backend None)
    (example_tape [expval_of "PauliZ"; expval_of "Hermitian"]) example_store None false
  = Ok example_adjoint_result
  /\ shape (returned_jac example_adjoint_result) = (2%nat, 3%nat)
  /\ length (entries (returned_jac example_adjoint_result)) = 2%nat
  /\ Forall (fun row : list Q => length row = 3%nat)
            (entries (returned_jac example_adjoint_result))
  /\ warnings example_adjoint_result = [ObservableParameterWarning "Hermitian"].
Proof.
  split; [vm_compute; reflexivity|].
  apply (adjoint_jacobian_shape (counting_backend None)
           (example_tape [expval_of "PauliZ"; expval_of "Hermitian"])
           example_store None false example_adjoint_result).
  vm_compute. reflexivity.
Defined.

(** C3. After a successful [adjoint_jacobian] call every operation
    object of the tape's operation list is as it was before the call, its
    inversion direction in particular: each [op.inv()] of the backward
    walk is undone by the second [op.inv()] of the same iteration. *)
Theorem adjoint_jacobian_restores_operations
    {F St Mx : Type} `{NumericBackend F} (self : AdjointDevice F St Mx)
    (tape : Tape F) (store0 : OpStore) (starting_state : option St)
    (use_device_state : bool) (res : AdjointResult F) :
  adjoint_jacobian self tape store0 starting_state use_device_state = Ok res ->
  forall (r : nat) (op : Operation),
    In r (operations tape) ->
    store0 !! r = Some op ->
    exists op', store_after res !! r = Some op'
                /\ op_inverse op' = op_inverse op
                /\ op' = op.
Proof.
  intros Hadj r op _ Hop. apply adjoint_jacobian_success in Hadj.
  destruct Hadj as ([extra ->] & _).
  exists op. split; [|auto].
  rewrite lookup_app_l; [exact Hop|]. eapply lookup_lt_Some, Hop.
Qed.

Lemma adjoint_jacobian_restores_operations_witness :
  adjoint_jacobian (counting_backend None)
    (example_tape [expval_of "PauliZ"; expval_of "Hermitian"]) example_store None false
  = Ok example_adjoint_result
  /\ exists op', store_after example_adjoint_result !! 1%nat = Some op'
                 /\ op_inverse op' = op_inverse (gate "Rot" 3 (Some "A"%string) true)
                 /\ op' = gate "Rot" 3 (Some "A"%string) true.
Proof.
  split; [vm_compute; reflexivity|].
  apply (adjoint_jacobian_restores_operations (counting_backend None)
           (example_tape [expval_of "PauliZ"; expval_of "Hermitian"])
           example_store None false example_adjoint_result).
  - vm_compute. reflexivity.
  - simpl. auto.
  - reflexivity.
Defined.

(** ** Basis-state codec *)

Lemma wrap_int64_range (z : Z) : - 2 ^ 63 <= wrap int64 z < 2 ^ 63.
Proof.
  rewrite wrap_int64_eq.
  pose proof (Z.mod_pos_bound (z + 2 ^ 63) (2 ^ 64) ltac:(lia)). lia.
Qed.

Lemma dot_int64_range (row weights : list Z) :
  - 2 ^ 63 <= dot_int64 row weights < 2 ^ 63.
Proof.
  unfold dot_int64.
  assert (Hgen : forall l acc,
             - 2 ^ 63 <= acc < 2 ^ 63 ->
             - 2 ^ 63 <= fold_left (fun acc ab => wrap int64 (acc + wrap int64 (fst ab * snd ab)))
                                   l acc < 2 ^ 63).
  { induction l as [|ab l IH]; intros acc Hacc; simpl; [exact Hacc|].
    apply IH, wrap_int64_range. }
  apply Hgen. lia.
Qed.

(** C4 (as stated). For 64 wires the integer [2^63] lies below [2^n] but
    is not an [int64] value, so no array of samples holds it; and since
    the weights and the dot product are [int64], no bit row whatever
    re-encodes to it (read into 64 bits, its own row re-encodes to
    [-2^63]). *)
Lemma basis_codec_roundtrip_counterexample :
  (1 <= 64)%nat
  /\ 0 <= 2 ^ 63 < 2 ^ Z.of_nat 64
  /\ representable int64 (2 ^ 63) = false
  /\ (forall row, matvec_int64 [row] (powers_of_two_desc 64) <> [2 ^ 63])
  /\ matvec_int64 (states_to_binary [2 ^ 63] 64 int64) (powers_of_two_desc 64) <> [2 ^ 63].
Proof.
  split; [lia|]. split; [split; [lia | reflexivity]|].
  split; [reflexivity|]. split.
  - intros row Heq. unfold matvec_int64 in Heq. simpl in Heq. injection Heq as Heq.
    pose proof (dot_int64_range row (powers_of_two_desc 64)) as Hr.
    rewrite Heq in Hr. lia.
  - vm_compute. discriminate.
Qed.

(** C4 (amended). For every number of wires [n >= 1] and every integer
    [i] with [0 <= i < 2^n] that is an [int64] value (always the case for
    [n <= 63]), decoding [i] with [states_to_binary] and re-encoding the
    bit row with the big-endian weights [2^(n-1-j)] recovers [i]. *)
Theorem basis_codec_roundtrip (n : nat) (i : Z) :
  (1 <= n)%nat ->
  0 <= i < 2 ^ Z.of_nat n ->
  representable int64 i = true ->
  matvec_int64 (states_to_binary [i] n int64) (powers_of_two_desc n) = [i].
Proof.
  intros _ Hi Hrep. unfold representable in Hrep. simpl in Hrep.
  apply andb_prop in Hrep. destruct Hrep as [_ Hhi]. apply Z.ltb_lt in Hhi.
  rewrite states_to_binary_row_int64 by lia.
  unfold matvec_int64. simpl. f_equal.
  rewrite dot_int64_bits_msb, Z.mod_small by lia.
  apply wrap_small; simpl; lia.
Qed.

Lemma basis_codec_roundtrip_witness :
  (1 <= 3)%nat /\ 0 <= 5 < 2 ^ Z.of_nat 3 /\ representable int64 5 = true
  /\ matvec_int64 (states_to_binary [5] 3 int64) (powers_of_two_desc 3) = [5].
Proof.
  split; [lia|]. split; [lia|]. split; [reflexivity|].
  apply (basis_codec_roundtrip 3 5); [lia | lia | reflexivity].
Defined.

(** C5. For [2 < num_wires < 32] the vectorized path of
    [generate_basis_states] ([np.arange] followed by [states_to_binary],
    with the default [uint32]) yields the same rows with the same bits, in
    the same order, as the [itertools.product] path yields for that
    [num_wires]. *)
Theorem generate_basis_states_paths_agree (num_wires : nat) :
  (2 < num_wires < 32)%nat ->
  generate_basis_states num_wires uint32 = Ok (basis_states_vectorized num_wires uint32)
  /\ basis_states_product num_wires = Ok (basis_states_vectorized num_wires uint32).
Proof.
  intros [Hlo Hhi]. split.
  - unfold generate_basis_states.
    destruct (Nat.ltb_spec 2 num_wires); [|lia].
    destruct (Nat.ltb_spec num_wires 32); [|lia]. reflexivity.
  - rewrite basis_states_product_bits by lia.
    rewrite basis_states_vectorized_bits by (simpl; lia). reflexivity.
Qed.

Lemma generate_basis_states_paths_agree_witness :
  (2 < 3 < 32)%nat
  /\ generate_basis_states 3 uint32 = Ok (basis_states_vectorized 3 uint32)
  /\ basis_states_product 3 = Ok (basis_states_vectorized 3 uint32).
Proof.
  split; [lia|]. apply (generate_basis_states_paths_agree 3). lia.
Defined.

(** ** Counting basis states *)









Lemma np_index_in_range (len : nat) (v : Z) :
  0 <= v < Z.of_nat len -> np_index len v = Ok (Z.to_nat v).
Proof.
  intros Hv. unfold np_index.
  destruct (Z.leb_spec 0 v); [|lia].
  destruct (Z.ltb_spec v (Z.of_nat len)); [|lia]. reflexivity.
Qed.


(** ** Sample rows *)

Lemma select_rows_Forall {A} (P : A -> Prop) (l : list A) (shot_range : option (Z * Z)) :
  Forall P l -> Forall P (select_rows l shot_range).
Proof.
  intros Hl. destruct shot_range as [[start stop]|]; simpl; [|assumption].
  unfold py_slice. apply Forall_take, Forall_drop, Hl.
Qed.


Lemma fold_binary_value (row : list Z) (acc : Z) :
  fold_left (fun acc b => 2 * acc + b) row acc
  = acc * 2 ^ Z.of_nat (length row) + binary_value row.
Proof.
  unfold binary_value. revert acc.
  induction row as [|b row IH]; intros acc; simpl length.
  - simpl. lia.
  - cbn [fold_left]. rewrite IH, (IH (2 * 0 + b)).
    rewrite Nat2Z.inj_succ, Z.pow_succ_r by lia. lia.
Qed.

(** A row of bits is the expansion of the integer it spells. *)
Lemma bit_row_bits_msb (row : list Z) :
  Forall is_bit row ->
  0 <= binary_value row < 2 ^ Z.of_nat (length row)
  /\ row = bits_msb (length row) (binary_value row).
Proof.
  induction row as [|b row IH] using rev_ind; intros Hrow.
  - simpl. split; [unfold binary_value; simpl; lia | reflexivity].
  - apply Forall_app in Hrow. destruct Hrow as [Hrow Hb].
    inversion Hb as [|? ? Hbit _]; subst.
    destruct (IH Hrow) as [Hrange Heq].
    assert (Hval : binary_value (row ++ [b]) = 2 * binary_value row + b).
    { unfold binary_value. rewrite fold_left_app. reflexivity. }
    rewrite Hval, length_app. simpl length.
    replace (length row + 1)%nat with (S (length row)) by lia.
    rewrite Nat2Z.inj_succ, Z.pow_succ_r by lia.
    split; [destruct Hbit; lia|].
    cbn [bits_msb].
    replace ((2 * binary_value row + b) / 2) with (binary_value row)
      by (destruct Hbit; subst b; Z.div_mod_to_equations; lia).
    replace ((2 * binary_value row + b) mod 2) with b
      by (destruct Hbit; subst b; Z.div_mod_to_equations; lia).
    rewrite <- Heq. reflexivity.
Qed.

(** Below 63 wires the [int64] encoding of a bit row is the integer it
    spells, a valid basis index. *)
Lemma dot_int64_bit_row (row : list Z) :
  Forall is_bit row ->
  2 ^ Z.of_nat (length row) < 2 ^ 63 ->
  dot_int64 row (powers_of_two_desc (length row)) = binary_value row
  /\ 0 <= binary_value row < 2 ^ Z.of_nat (length row).
Proof.
  intros Hrow Hk. destruct (bit_row_bits_msb row Hrow) as [Hrange Heq].
  split; [|exact Hrange].
  rewrite Heq at 1. rewrite dot_int64_bits_msb, Z.mod_small by lia.
  apply wrap_small; simpl; lia.
Qed.






(** ** Estimated probabilities *)



Lemma is_bit_buffer_check (buffer : list (list Z)) :
  forallb (forallb (fun b => (b =? 0) || (b =? 1))) buffer = true ->
  Forall (Forall is_bit) buffer.
Proof.
  intros Hall. apply Forall_forall. intros row Hrow.
  apply Forall_forall. intros b Hb.
  rewrite forallb_forall in Hall. apply list_elem_of_In in Hrow, Hb.
  specialize (Hall _ Hrow). rewrite forallb_forall in Hall. specialize (Hall _ Hb).
  apply orb_prop in Hall. unfold is_bit. destruct Hall as [E|E]; apply Z.eqb_eq in E; auto.
Qed.


(* ================================================================== *)
(** * Further properties *)

(** ** Basis-state codec, continued *)

Lemma length_arange_nat (n : nat) : length (arange (Z.of_nat n)) = n.
Proof. rewrite arange_of_nat, length_map, length_seq. reflexivity. Qed.

Lemma length_states_to_binary (samples : list Z) (num_wires : nat) (d : Dtype) :
  length (states_to_binary samples num_wires d) = length samples.
Proof. unfold states_to_binary. rewrite !length_map. reflexivity. Qed.

Lemma states_to_binary_rows (samples : list Z) (num_wires : nat) (d : Dtype) :
  Forall (fun row => length row = num_wires /\ Forall is_bit row)
         (states_to_binary samples num_wires d).
Proof.
  unfold states_to_binary.
  apply Forall_map, Forall_map, Forall_forall. intros s _. simpl. split.
  - rewrite length_rev, !length_map. apply length_arange_nat.
  - apply Forall_rev, Forall_map, Forall_forall. intros x _. simpl.
    unfold is_bit. destruct (0 <? x); auto.
Qed.


Lemma generate_basis_states_bits (n : nat) :
  (1 <= n)%nat ->
  generate_basis_states n uint32 = Ok (map (bits_msb n) (arange (2 ^ Z.of_nat n))).
Proof.
  intros Hn. unfold generate_basis_states.
  destruct (Nat.ltb_spec 2 n); simpl.
  - destruct (Nat.ltb_spec n 32).
    + rewrite basis_states_vectorized_bits by (simpl; lia). reflexivity.
    + apply basis_states_product_bits. lia.
  - apply basis_states_product_bits. lia.
Qed.

Lemma lookup_arange (n : nat) (i : nat) :
  (i < n)%nat -> arange (Z.of_nat n) !! i = Some (Z.of_nat i).
Proof.
  intros Hi. rewrite arange_of_nat, list_lookup_fmap, lookup_seq_lt by lia.
  reflexivity.
Qed.

(** X2. Whenever [generate_basis_states] returns, on either code path,
    the number of wires is at least 1 and the result is the full
    enumeration in ascending index order: [2^n] rows, row [i] being the
    most-significant-first [n]-bit expansion of [i]. *)
Theorem generate_basis_states_enumeration (n : nat) (rows : list (list Z)) :
  generate_basis_states n uint32 = Ok rows ->
  (1 <= n)%nat
  /\ Z.of_nat (length rows) = 2 ^ Z.of_nat n
  /\ forall i, 0 <= i < 2 ^ Z.of_nat n -> rows !! Z.to_nat i = Some (bits_msb n i).
Proof.
  intros Hgen. destruct n as [|k]; [vm_compute in Hgen; discriminate|].
  rewrite generate_basis_states_bits in Hgen by lia. injection Hgen as <-.
  split; [lia|]. rewrite pow2_of_nat. split.
  - rewrite length_map, length_arange_nat. reflexivity.
  - intros i Hi. rewrite list_lookup_fmap, lookup_arange by lia.
    simpl. rewrite Z2Nat.id by lia. reflexivity.
Qed.

Lemma generate_basis_states_enumeration_witness :
  generate_basis_states 2 uint32 = Ok [[0; 0]; [0; 1]; [1; 0]; [1; 1]]
  /\ (1 <= 2)%nat
  /\ Z.of_nat (length [[0; 0]; [0; 1]; [1; 0]; [1; 1]]) = 2 ^ Z.of_nat 2
  /\ forall i, 0 <= i < 2 ^ Z.of_nat 2 ->
               [[0; 0]; [0; 1]; [1; 0]; [1; 1]] !! Z.to_nat i = Some (bits_msb 2 i).
Proof.
  split; [reflexivity|].
  apply (generate_basis_states_enumeration 2 [[0; 0]; [0; 1]; [1; 0]; [1; 1]]).
  reflexivity.
Defined.

Lemma is_bit_row_check (row : list Z) :
  forallb (fun b => (b =? 0) || (b =? 1)) row = true -> Forall is_bit row.
Proof.
  intros Hrow. assert (Hb : Forall (Forall is_bit) [row]).
  { apply is_bit_buffer_check. simpl. rewrite Hrow. reflexivity. }
  inversion Hb. assumption.
Qed.

(** X3. Below 63 wires, encoding a row of bits with the big-endian
    [int64] weights and decoding the index with [states_to_binary] gives
    the row back. *)
Theorem bit_row_roundtrip (row : list Z) :
  Forall is_bit row ->
  2 ^ Z.of_nat (length row) < 2 ^ 63 ->
  states_to_binary [dot_int64 row (powers_of_two_desc (length row))] (length row) int64
  = [row].
Proof.
  intros Hrow Hk.
  destruct (dot_int64_bit_row row Hrow Hk) as [-> Hrange].
  rewrite states_to_binary_row_int64 by lia.
  destruct (bit_row_bits_msb row Hrow) as [_ <-]. reflexivity.
Qed.

Lemma bit_row_roundtrip_witness :
  Forall is_bit [1; 0; 1; 1]
  /\ 2 ^ Z.of_nat (length [1; 0; 1; 1]) < 2 ^ 63
  /\ states_to_binary [dot_int64 [1; 0; 1; 1] (powers_of_two_desc (length [1; 0; 1; 1]))]
                      (length [1; 0; 1; 1]) int64
     = [[1; 0; 1; 1]].
Proof.
  split; [apply is_bit_row_check; reflexivity|]. split; [reflexivity|].
  apply (bit_row_roundtrip [1; 0; 1; 1]); [apply is_bit_row_check|]; reflexivity.
Defined.

Lemma states_to_binary_int64_array (n : nat) (samples : list Z) :
  Forall (fun s => 0 <= s < 2 ^ 63) samples ->
  states_to_binary samples n int64 = map (bits_msb n) samples.
Proof.
  induction 1 as [|s samples Hs _ IH]; [reflexivity|].
  change (states_to_binary (s :: samples) n int64)
    with (states_to_binary [s] n int64 ++ states_to_binary samples n int64).
  rewrite IH, states_to_binary_row_int64 by assumption. reflexivity.
Qed.

(** X4. When [generate_samples] returns, shots are configured, the
    buffer holds one row of [num_wires] bits per basis state drawn by
    [np.random.choice], and, the drawn states being indices below
    [2^num_wires] that fit [int64], re-encoding the rows with the
    big-endian weights gives back the drawn states in order. *)
Theorem generate_samples_buffer
    {F : Type} `{NumericBackend F} (self : QubitDevice F) (buffer : list (list Z)) :
  generate_samples self = Ok buffer ->
  exists (n_shots : Z) (rotated_prob : ProbResult F) (states : list Z),
    shots self = Some n_shots
    /\ analytic_probability self None = Ok rotated_prob
    /\ random_choice self (arange (2 ^ Z.of_nat (num_wires self))) n_shots rotated_prob
       = Ok states
    /\ length buffer = length states
    /\ Forall (fun row => length row = num_wires self /\ Forall is_bit row) buffer
    /\ (Forall (fun s => 0 <= s < 2 ^ Z.of_nat (num_wires self) /\ s < 2 ^ 63) states ->
        matvec_int64 buffer (powers_of_two_desc (num_wires self)) = states).
Proof.
  unfold generate_samples, sample_basis_states. intros Hgen.
  inv_bind Hgen as rotated_prob Hprob. inv_bind Hgen as states Hchoice.
  injection Hgen as <-.
  destruct (shots self) as [n_shots|]; [|discriminate].
  exists n_shots, rotated_prob, states.
  pose proof (length_states_to_binary states (num_wires self) int64) as Hlen.
  pose proof (states_to_binary_rows states (num_wires self) int64) as Hrows.
  repeat split; try assumption; try reflexivity.
  intros Hstates. rewrite states_to_binary_int64_array.
  - unfold matvec_int64. rewrite map_map.
    rewrite <- (map_id states) at 2. apply map_ext_in. intros s Hs.
    rewrite Forall_forall in Hstates. apply list_elem_of_In in Hs.
    destruct (Hstates _ Hs) as [Hrange Hfit].
    rewrite dot_int64_bits_msb, Z.mod_small by lia.
    apply wrap_small; simpl; lia.
  - eapply Forall_impl; [exact Hstates|]. simpl. intros s [Hs Hfit]. lia.
Qed.

Lemma generate_samples_buffer_witness :
  generate_samples drawing_device = Ok [[1; 0; 1]; [0; 1; 0]; [1; 1; 1]]
  /\ exists (n_shots : Z) (rotated_prob : ProbResult Q) (states : list Z),
       shots drawing_device = Some n_shots
       /\ analytic_probability drawing_device None = Ok rotated_prob
       /\ random_choice drawing_device (arange (2 ^ Z.of_nat (num_wires drawing_device)))
                        n_shots rotated_prob
          = Ok states
       /\ length [[1; 0; 1]; [0; 1; 0]; [1; 1; 1]] = length states
       /\ Forall (fun row => length row = num_wires drawing_device /\ Forall is_bit row)
                 [[1; 0; 1]; [0; 1; 0]; [1; 1; 1]]
       /\ (Forall (fun s => 0 <= s < 2 ^ Z.of_nat (num_wires drawing_device) /\ s < 2 ^ 63)
                  states ->
           matvec_int64 [[1; 0; 1]; [0; 1; 0]; [1; 1; 1]]
                        (powers_of_two_desc (num_wires drawing_device))
           = states).
Proof.
  split; [vm_compute; reflexivity|].
  apply (generate_samples_buffer drawing_device [[1; 0; 1]; [0; 1; 0]; [1; 1; 1]]).
  vm_compute. reflexivity.
Defined.

(** ** Wires *)

Lemma mapM_Ok_length {A B} (f : A -> Res B) (l : list A) (k : list B) :
  mapM f l = Ok k -> length k = length l.
Proof.
  revert k. induction l as [|x l IH]; intros k Hk; simpl in Hk.
  - injection Hk as <-. reflexivity.
  - inv_bind Hk as y Hy. inv_bind Hk as k' Hk'. injection Hk as <-.
    simpl. f_equal. eauto.
Qed.

Lemma index_of_wire_in (w : WireLabel) (device_wires : list WireLabel) :
  index_of w device_wires = None <-> wire_in w device_wires = false.
Proof.
  unfold wire_in. induction device_wires as [|v rest IH]; simpl; [tauto|].
  destruct (bool_decide (v = w)); simpl.
  - split; discriminate.
  - rewrite <- IH. destruct (index_of w rest); simpl; split; congruence.
Qed.

Lemma index_of_bound (w : WireLabel) (device_wires : list WireLabel) (i : nat) :
  index_of w device_wires = Some i -> device_wires !! i = Some w.
Proof.
  revert i. induction device_wires as [|v rest IH]; intros i; simpl; [discriminate|].
  destruct (bool_decide_reflect (v = w)) as [->|Hne].
  - intros [= <-]. reflexivity.
  - destruct (index_of w rest) as [j|]; simpl; [|discriminate].
    intros [= <-]. simpl. apply IH. reflexivity.
Qed.

Lemma map_wires_unknown (device_wires ws : list WireLabel) :
  forallb (fun w => wire_in w device_wires) ws = false ->
  map_wires device_wires ws = Raise WireError.
Proof.
  unfold map_wires. induction ws as [|w ws IH]; simpl; [discriminate|].
  intros Hall. destruct (index_of w device_wires) as [i|] eqn:Hi; simpl; [|reflexivity].
  assert (Hw : wire_in w device_wires = true).
  { destruct (wire_in w device_wires) eqn:E; [reflexivity|].
    apply index_of_wire_in in E. congruence. }
  rewrite Hw in Hall. simpl in Hall. rewrite (IH Hall). reflexivity.
Qed.

Lemma map_wires_known (device_wires ws : list WireLabel) (l : list nat) :
  map_wires device_wires ws = Ok l ->
  Forall2 (fun w i => device_wires !! i = Some w) ws l.
Proof.
  unfold map_wires. revert l. induction ws as [|w ws IH]; intros l Hl; simpl in Hl.
  - injection Hl as <-. constructor.
  - inv_bind Hl as i Hi. inv_bind Hl as l' Hl'. injection Hl as <-.
    constructor; [|apply IH, Hl'].
    destruct (index_of w device_wires) as [j|] eqn:Hj; [|discriminate].
    injection Hi as <-. apply index_of_bound, Hj.
Qed.

(** X5. A requested wire list that repeats a label or names a wire the
    device does not have makes [marginal_prob] and, when it is not empty,
    [estimate_probability] fail with [WireError]; [sample] fails with
    [WireError] as soon as one of the observable's wires is not a device
    wire.  Nothing is read from the probability vector or the sample
    buffer before that. *)
Theorem invalid_wires_raise_WireError
    {F : Type} `{NumericBackend F} (self : QubitDevice F) (ws : list WireLabel) :
  valid_wires (wires self) ws = false ->
  (forall prob, marginal_prob self prob (Some ws) = Raise WireError)
  /\ (ws <> [] ->
      forall shot_range bin_size,
        estimate_probability self (Some ws) shot_range bin_size = Raise WireError)
  /\ (forallb (fun w => wire_in w (wires self)) ws = false ->
      forall name mp eigvals shot_range bin_size,
        sample_observable self
          {| so_name := name; so_wires := ws;
             so_is_measurement_process := mp; so_eigvals := eigvals |}
          shot_range bin_size
        = Raise WireError).
Proof.
  unfold valid_wires. intros Hvalid.
  assert (Hpre : has_duplicates ws = true
                 \/ (has_duplicates ws = false
                     /\ map_wires (wires self) ws = Raise WireError)).
  { destruct (has_duplicates ws); [left; reflexivity|right].
    split; [reflexivity|]. apply map_wires_unknown, Hvalid. }
  split; [|split].
  - intros prob. unfold marginal_prob, Wires.
    destruct Hpre as [-> | [-> Hmap]]; [reflexivity|].
    rewrite bind_Ok_l, Hmap. reflexivity.
  - intros Hne shot_range bin_size. unfold estimate_probability.
    assert (Hws : wires_or_self self (Some ws) = ws).
    { destruct ws; [contradiction|reflexivity]. }
    rewrite Hws. unfold Wires.
    destruct Hpre as [-> | [-> Hmap]]; [reflexivity|].
    rewrite bind_Ok_l, Hmap. reflexivity.
  - intros Hunknown name mp eigvals shot_range bin_size.
    unfold sample_observable. simpl so_wires.
    rewrite (map_wires_unknown _ _ Hunknown). reflexivity.
Qed.

Lemma invalid_wires_raise_WireError_witness :
  valid_wires (wires (three_wire_device (Some 4) (Some four_shots))) [IntWire 0; IntWire 7]
  = false
  /\ (forall prob,
        marginal_prob (three_wire_device (Some 4) (Some four_shots)) prob
                      (Some [IntWire 0; IntWire 7])
        = Raise WireError)
  /\ ([IntWire 0; IntWire 7] <> [] ->
      forall shot_range bin_size,
        estimate_probability (three_wire_device (Some 4) (Some four_shots))
                             (Some [IntWire 0; IntWire 7]) shot_range bin_size
        = Raise WireError)
  /\ (forallb (fun w => wire_in w (wires (three_wire_device (Some 4) (Some four_shots))))
              [IntWire 0; IntWire 7] = false ->
      forall name mp eigvals shot_range bin_size,
        sample_observable (three_wire_device (Some 4) (Some four_shots))
          {| so_name := name; so_wires := [IntWire 0; IntWire 7];
             so_is_measurement_process := mp; so_eigvals := eigvals |}
          shot_range bin_size
        = Raise WireError).
Proof.
  split; [reflexivity|].
  apply (invalid_wires_raise_WireError (three_wire_device (Some 4) (Some four_shots))
           [IntWire 0; IntWire 7]).
  reflexivity.
Defined.

(** ** Binned estimates *)

(** What the unbinned and the binned call share: the wires resolve, the
    buffer is there, and the selected columns exist. *)
Lemma estimate_probability_prefix
    {F : Type} `{NumericBackend F} (self : QubitDevice F)
    (wires_arg : option (list WireLabel)) (shot_range : option (Z * Z))
    (bin_size : option Z) (p : ProbResult F) :
  estimate_probability self wires_arg shot_range bin_size = Ok p ->
  exists wires1 device_wires buffer samples,
    Wires (wires_or_self self wires_arg) = Ok wires1
    /\ map_wires (wires self) wires1 = Ok device_wires
    /\ _samples self = Some buffer
    /\ select_columns (select_rows buffer shot_range) device_wires = Ok samples
    /\ length samples = length (select_rows buffer shot_range).
Proof.
  unfold estimate_probability. intros Hest.
  inv_bind Hest as wires1 Hwires. inv_bind Hest as device_wires Hmap.
  inv_bind Hest as samples Hsel.
  destruct (_samples self) as [buffer|]; [|discriminate].
  exists wires1, device_wires, buffer, samples. repeat split; try assumption.
  eapply mapM_Ok_length, Hsel.
Qed.

(** X6. Wherever the unbinned estimate of a selection exists, asking for
    bins of size 0 raises [ZeroDivisionError], and asking for a bin size
    that leaves no whole bin (larger than the number of selected rows, or
    negative) raises [ValueError]: no empty matrix is returned. *)
Theorem estimate_probability_degenerate_bins
    {F : Type} `{NumericBackend F} (self : QubitDevice F)
    (wires_arg : option (list WireLabel)) (shot_range : option (Z * Z))
    (buffer : list (list Z)) (p : ProbResult F) :
  _samples self = Some buffer ->
  estimate_probability self wires_arg shot_range None = Ok p ->
  estimate_probability self wires_arg shot_range (Some 0) = Raise ZeroDivisionError
  /\ forall bin_size,
       bin_size <> 0 ->
       Z.of_nat (length (select_rows buffer shot_range)) / bin_size <= 0 ->
       estimate_probability self wires_arg shot_range (Some bin_size) = Raise ValueError.
Proof.
  intros Hbuf Hest.
  destruct (estimate_probability_prefix _ _ _ _ _ Hest)
    as (wires1 & device_wires & buffer' & samples & Hw & Hm & Hb & Hs & Hlen).
  rewrite Hbuf in Hb. injection Hb as <-.
  unfold estimate_probability. rewrite Hw, Hbuf. simpl.
  rewrite Hm. simpl. rewrite Hs. simpl. split; [reflexivity|].
  intros bin_size Hne Hbins.
  destruct (Z.eqb_spec bin_size 0); [contradiction|]. simpl.
  unfold reshape_bins. rewrite Hlen.
  destruct (Z.leb_spec (Z.of_nat (length (select_rows buffer shot_range)) / bin_size) 0);
    [reflexivity | lia].
Qed.

Lemma estimate_probability_degenerate_bins_witness :
  _samples (three_wire_device (Some 4) (Some four_shots)) = Some four_shots
  /\ estimate_probability (three_wire_device (Some 4) (Some four_shots)) None None None
     = Ok (ProbVec four_shots_estimate)
  /\ estimate_probability (three_wire_device (Some 4) (Some four_shots)) None None (Some 0)
     = Raise ZeroDivisionError
  /\ forall bin_size,
       bin_size <> 0 ->
       Z.of_nat (length (select_rows four_shots None)) / bin_size <= 0 ->
       estimate_probability (three_wire_device (Some 4) (Some four_shots)) None None
                            (Some bin_size)
       = Raise ValueError.
Proof.
  split; [reflexivity|]. split; [vm_compute; reflexivity|].
  apply (estimate_probability_degenerate_bins
           (three_wire_device (Some 4) (Some four_shots)) None None four_shots
           (ProbVec four_shots_estimate)).
  - reflexivity.
  - vm_compute. reflexivity.
Defined.

Lemma set_counts_column_shape {F : Type} `{NumericBackend F}
    (uc : list (Z * Z)) (b : nat) (bin_size : Z) (cols : nat) (prob prob' : list (list F)) :
  set_counts_column prob b uc bin_size = Ok prob' ->
  length prob' = length prob
  /\ (Forall (fun row => length row = cols) prob -> Forall (fun row => length row = cols) prob').
Proof.
  unfold set_counts_column. revert prob.
  induction uc as [|bc uc IH]; intros prob Hset; simpl in Hset.
  - injection Hset as <-. auto.
  - inv_bind Hset as prob1 Hstep. inv_bind Hstep as k Hk. injection Hstep as <-.
    destruct (IH _ Hset) as [Hlen Hrows]. rewrite length_alter in Hlen.
    split; [exact Hlen|]. intros Hall. apply Hrows.
    apply Forall_alter; [exact Hall|]. intros row _ Hrow. rewrite length_insert. exact Hrow.
Qed.

Lemma bin_loop_shape {F : Type} `{NumericBackend F}
    (bin_size : Z) (cols : nat) (bins : list (nat * list Z)) (prob prob' : list (list F)) :
  foldlM (fun prob b_idx =>
            set_counts_column prob (fst b_idx) (np_unique_counts (snd b_idx)) bin_size)
         prob bins = Ok prob' ->
  length prob' = length prob
  /\ (Forall (fun row => length row = cols) prob -> Forall (fun row => length row = cols) prob').
Proof.
  revert prob. induction bins as [|b bins IH]; intros prob Hloop; simpl in Hloop.
  - injection Hloop as <-. auto.
  - inv_bind Hloop as prob1 Hstep.
    apply (set_counts_column_shape _ _ _ cols) in Hstep. destruct Hstep as [Hlen Hrows].
    destruct (IH _ Hloop) as [Hlen' Hrows']. split; [congruence|auto].
Qed.

(** X7. When [estimate_probability] returns with a [bin_size], the
    result is a matrix with one row per basis state ([2^k] rows for [k]
    wires) and one column per bin, the number of bins being
    [len(samples) // bin_size]; the call only returns when that number is
    positive and divides the number of selected rows. *)
Theorem estimate_probability_binned_shape
    {F : Type} `{NumericBackend F} (self : QubitDevice F)
    (wires_arg : option (list WireLabel)) (shot_range : option (Z * Z))
    (bin_size : Z) (buffer : list (list Z)) (p : ProbResult F) :
  _samples self = Some buffer ->
  estimate_probability self wires_arg shot_range (Some bin_size) = Ok p ->
  exists (device_wires : list nat) (prob : list (list F)),
    p = ProbMat prob
    /\ (Wires (wires_or_self self wires_arg) ≫= map_wires (wires self)) = Ok device_wires
    /\ let n := Z.of_nat (length (select_rows buffer shot_range)) in
       let bins := n / bin_size in
       bin_size <> 0
       /\ 0 < bins
       /\ n mod bins = 0
       /\ Z.of_nat (length prob) = 2 ^ Z.of_nat (length device_wires)
       /\ Forall (fun row => Z.of_nat (length row) = bins) prob.
Proof.
  intros Hbuf Hest.
  destruct (estimate_probability_prefix _ _ _ _ _ Hest)
    as (wires1 & device_wires & buffer' & samples & Hw & Hm & Hb & Hs & Hlen).
  rewrite Hbuf in Hb. injection Hb as <-.
  unfold estimate_probability in Hest. rewrite Hw, Hbuf in Hest. simpl in Hest.
  rewrite Hm in Hest. simpl in Hest. rewrite Hs in Hest. simpl in Hest.
  inv_bind Hest as bins Hbins. inv_bind Hest as indices Hresh.
  inv_bind Hest as prob0 Hzeros. inv_bind Hest as prob Hloop.
  injection Hest as <-.
  exists device_wires, prob. split; [reflexivity|].
  split; [rewrite Hw; exact Hm|]. cbv zeta.
  destruct (Z.eqb_spec bin_size 0) as [|Hne]; [discriminate|].
  injection Hbins as <-. rewrite Hlen in *.
  set (n := Z.of_nat (length (select_rows buffer shot_range))) in *.
  unfold reshape_bins in Hresh.
  destruct (Z.leb_spec (n / bin_size) 0) as [|Hpos]; [discriminate|].
  unfold matvec_int64 in Hresh. rewrite length_map, Hlen in Hresh. fold n in Hresh.
  destruct (Z.eqb_spec (n mod (n / bin_size)) 0) as [Hdiv|]; [|discriminate].
  unfold np_zeros2 in Hzeros.
  destruct (Z.ltb_spec (2 ^ Z.of_nat (length device_wires)) (2 ^ 63)); [|discriminate].
  injection Hzeros as <-.
  apply (bin_loop_shape _ (Z.to_nat (n / bin_size))) in Hloop.
  destruct Hloop as [Hrows Hcols]. rewrite length_replicate in Hrows.
  assert (Hp : 0 < 2 ^ Z.of_nat (length device_wires)) by (apply Z.pow_pos_nonneg; lia).
  repeat split; try assumption; try lia.
  eapply Forall_impl; [apply Hcols, Forall_replicate, length_replicate|].
  simpl. intros row Hrow. lia.
Qed.

Lemma estimate_probability_binned_shape_witness :
  exists (device_wires : list nat) (prob : list (list Q)),
    ProbMat [[1 # 2; 1 # 2]; [1 # 2; 1 # 2]]%Q = ProbMat prob
    /\ (Wires (wires_or_self (three_wire_device (Some 4) (Some four_shots))
                             (Some [IntWire 1]))
          ≫= map_wires (wires (three_wire_device (Some 4) (Some four_shots))))
       = Ok device_wires
    /\ let n := Z.of_nat (length (select_rows four_shots None)) in
       let bins := n / 2 in
       2 <> 0
       /\ 0 < bins
       /\ n mod bins = 0
       /\ Z.of_nat (length prob) = 2 ^ Z.of_nat (length device_wires)
       /\ Forall (fun row => Z.of_nat (length row) = bins) prob.
Proof.
  apply (estimate_probability_binned_shape
           (three_wire_device (Some 4) (Some four_shots)) (Some [IntWire 1]) None 2
           four_shots (ProbMat [[1 # 2; 1 # 2]; [1 # 2; 1 # 2]]%Q)).
  - reflexivity.
  - vm_compute. reflexivity.
Defined.

(** ** Reset *)

(** X8. After [reset] the device never answers from samples of an
    earlier run: [estimate_probability] fails with [TypeError] (or with
    [WireError] for invalid wires) and so does [sample], which may also
    fail with [IndexError] for a Pauli observable without wires. *)
Theorem reset_invalidates_samples
    {F : Type} `{NumericBackend F} (self : QubitDevice F) :
  (forall wires_arg shot_range bin_size,
     estimate_probability (reset self) wires_arg shot_range bin_size = Raise TypeError
     \/ estimate_probability (reset self) wires_arg shot_range bin_size = Raise WireError)
  /\ (forall observable shot_range bin_size,
        sample_observable (reset self) observable shot_range bin_size = Raise TypeError
        \/ sample_observable (reset self) observable shot_range bin_size = Raise WireError
        \/ sample_observable (reset self) observable shot_range bin_size = Raise IndexError).
Proof.
  split.
  - intros wires_arg shot_range bin_size. unfold estimate_probability. simpl.
    unfold Wires. destruct (has_duplicates _); [right; reflexivity|].
    rewrite bind_Ok_l.
    destruct (mapM_wire_error_or_ok (wires self) (wires_or_self (reset self) wires_arg))
      as [[l ->]| ->]; [left | right]; reflexivity.
  - intros observable shot_range bin_size. unfold sample_observable. simpl.
    destruct (mapM_wire_error_or_ok (wires self) (so_wires observable))
      as [[l ->]| ->]; [|right; left; reflexivity].
    rewrite bind_Ok_l.
    destruct (is_pauli_name (so_name observable)).
    + destruct l; [right; right|left]; reflexivity.
    + destruct (so_is_measurement_process observable); left; reflexivity.
Qed.

(** ** Marginal probabilities *)

(** X9. When [marginal_prob] returns for a requested wire list, the
    result has one entry per basis state of the requested wires: its
    length is [2^k] for [k] requested wires, whatever the number of
    device wires. *)
Theorem marginal_prob_length
    {F : Type} `{NumericBackend F} (self : QubitDevice F)
    (prob out : list F) (ws : list WireLabel) :
  marginal_prob self prob (Some ws) = Ok out ->
  Z.of_nat (length out) = 2 ^ Z.of_nat (length ws).
Proof.
  unfold marginal_prob. intros Hm.
  inv_bind Hm as wires1 Hw. inv_bind Hm as device_wires Hmap.
  inv_bind Hm as inactive Hin. inv_bind Hm as prob1 Hresh.
  inv_bind Hm as basis_states Hgen. inv_bind Hm as permuted Hsel.
  unfold gather in Hm. apply mapM_Ok_length in Hm. rewrite Hm.
  unfold matvec_int64. rewrite length_map.
  apply mapM_Ok_length in Hsel. rewrite Hsel.
  unfold Wires in Hw. destruct (has_duplicates ws); [discriminate|].
  injection Hw as <-.
  apply mapM_Ok_length in Hmap. rewrite <- Hmap.
  destruct (length device_wires) as [|k] eqn:Hk; [discriminate|].
  rewrite generate_basis_states_bits in Hgen by lia. injection Hgen as <-.
  rewrite length_map, pow2_of_nat, length_arange_nat. reflexivity.
Qed.

Lemma marginal_prob_length_witness :
  marginal_prob (three_wire_device None None) eight_entries (Some [IntWire 2; IntWire 0])
  = Ok eight_entries_marginal
  /\ length eight_entries_marginal = 4%nat
  /\ Z.of_nat (length eight_entries_marginal) = 2 ^ Z.of_nat (length [IntWire 2; IntWire 0]).
Proof.
  split; [vm_compute; reflexivity|]. split; [reflexivity|].
  apply (marginal_prob_length (three_wire_device None None) eight_entries
           eight_entries_marginal [IntWire 2; IntWire 0]).
  vm_compute. reflexivity.
Defined.

(** ** Statistics dispatcher, continued *)

Lemma foldlM_Ok_steps {A B} (f : B -> A -> Res B) (l : list A) (b b' : B) :
  foldlM f b l = Ok b' -> Forall (fun x => exists a a', f a x = Ok a') l.
Proof.
  revert b. induction l as [|x l IH]; intros b Hloop; simpl in Hloop; [constructor|].
  inv_bind Hloop as b1 Hstep. constructor; [eauto|]. eapply IH, Hloop.
Qed.

(** X10. An observable whose return type the dispatcher does not
    recognise makes [statistics] fail: no result list is returned, not
    even the entries of the observables before it. *)
Theorem statistics_rejects_unrecognised_return_type
    {F R : Type} (self : StatisticsDevice F R) (observables : list (Observable F))
    (shot_range : option (Z * Z)) (bin_size : option Z) :
  Exists (fun obs => exists value, return_type obs = Some (OtherReturnType value)) observables ->
  exists e, statistics self observables shot_range bin_size = Raise e.
Proof.
  intros Hex. destruct (statistics self observables shot_range bin_size) as [results|e] eqn:Hs;
    [|eauto].
  exfalso. apply foldlM_Ok_steps in Hs. rewrite Forall_forall in Hs.
  apply Exists_exists in Hex. destruct Hex as (obs & Hin & value & Hrt).
  destruct (Hs obs Hin) as (a & a' & Hstep).
  unfold statistics_step in Hstep. rewrite Hrt in Hstep. discriminate.
Qed.

Lemma statistics_rejects_unrecognised_return_type_witness :
  exists e,
    statistics tagging_device
      [observable_of "PauliZ" (Some Expectation) 0;
       observable_of "PauliX" (Some (OtherReturnType "measure")) 1]
      None None
    = Raise e.
Proof.
  apply (statistics_rejects_unrecognised_return_type tagging_device
           [observable_of "PauliZ" (Some Expectation) 0;
            observable_of "PauliX" (Some (OtherReturnType "measure")) 1] None None).
  apply Exists_cons_tl, Exists_cons_hd. eexists. reflexivity.
Defined.

Lemma access_state_Ok {F R : Type} (self : StatisticsDevice F R)
    (ws : option (list WireLabel)) (r : R) :
  access_state self ws = Ok r ->
  returns_state self = true /\ exists st, state self = Ok (Some st).
Proof.
  unfold access_state. destruct (returns_state self); [|discriminate].
  simpl. intros Hacc. split; [reflexivity|].
  inv_bind Hacc as st Hst. destruct st as [st|]; [eauto|discriminate].
Qed.

(** X11. When [statistics] returns and one of the observables has
    return type State, that observable is the only one requested, the
    device wires are labelled [0 .. n-1], the device declares the
    [returns_state] capability and its state is available. *)
Theorem statistics_state_is_exclusive
    {F R : Type} (self : StatisticsDevice F R) (observables : list (Observable F))
    (shot_range : option (Z * Z)) (bin_size : option Z) (results : list R)
    (obs : Observable F) :
  statistics self observables shot_range bin_size = Ok results ->
  In obs observables ->
  return_type obs = Some State ->
  observables = [obs]
  /\ custom_wire_labels self = false
  /\ returns_state self = true
  /\ exists st, state self = Ok (Some st).
Proof.
  intros Hs Hin Hrt. apply foldlM_Ok_steps in Hs. rewrite Forall_forall in Hs.
  destruct (Hs obs (proj2 (list_elem_of_In _ _) Hin)) as (a & a' & Hstep).
  unfold statistics_step in Hstep. rewrite Hrt in Hstep.
  destruct (Nat.ltb_spec 1 (length observables)) as [|Hlen]; [discriminate|].
  destruct (custom_wire_labels self); [discriminate|].
  inv_bind Hstep as r Hacc. apply access_state_Ok in Hacc.
  split; [|split; [reflexivity|exact Hacc]].
  destruct observables as [|o1 [|o2 rest]]; simpl in Hin, Hlen; [tauto| |lia].
  destruct Hin as [->|[]]. reflexivity.
Qed.

Lemma statistics_state_is_exclusive_witness :
  observable_of "state" (Some State) 0 :: nil = [observable_of "state" (Some State) 0]
  /\ custom_wire_labels tagging_device = false
  /\ returns_state tagging_device = true
  /\ exists st, state tagging_device = Ok (Some st).
Proof.
  apply (statistics_state_is_exclusive tagging_device
           [observable_of "state" (Some State) 0] None None [6]
           (observable_of "state" (Some State) 0)).
  - reflexivity.
  - left. reflexivity.
  - reflexivity.
Defined.

(** X12. When [statistics] returns and one of the observables has
    return type VnEntropy or MutualInfo, the device wires are labelled
    [0 .. n-1], the device declares the [returns_state] capability and its
    state is available; a MutualInfo observable then carries exactly two
    wire groups. *)
Theorem statistics_entropy_needs_state
    {F R : Type} (self : StatisticsDevice F R) (observables : list (Observable F))
    (shot_range : option (Z * Z)) (bin_size : option Z) (results : list R)
    (obs : Observable F) :
  statistics self observables shot_range bin_size = Ok results ->
  In obs observables ->
  return_type obs = Some VnEntropy \/ return_type obs = Some MutualInfo ->
  custom_wire_labels self = false
  /\ returns_state self = true
  /\ (exists st, state self = Ok (Some st))
  /\ (return_type obs = Some MutualInfo ->
      exists wires0 wires1, raw_wires obs = [wires0; wires1]).
Proof.
  intros Hs Hin Hrt. apply foldlM_Ok_steps in Hs. rewrite Forall_forall in Hs.
  destruct (Hs obs (proj2 (list_elem_of_In _ _) Hin)) as (a & a' & Hstep).
  assert (Hacc : forall st : R,
             access_state_or_not_implemented self = Ok st ->
             returns_state self = true /\ exists st, state self = Ok (Some st)).
  { unfold access_state_or_not_implemented. intros st Hst.
    destruct (access_state self None) as [st'|e] eqn:Hacc.
    - eapply access_state_Ok, Hacc.
    - destruct e; discriminate. }
  unfold statistics_step in Hstep.
  destruct Hrt as [Hrt|Hrt]; rewrite Hrt in Hstep;
    destruct (custom_wire_labels self); try discriminate.
  - inv_bind Hstep as r Hr. unfold vn_entropy in Hr. inv_bind Hr as st Hst.
    destruct (Hacc _ Hst) as [Hcap Hstate].
    repeat split; try assumption. intros Heq. congruence.
  - destruct (raw_wires obs) as [|wires0 [|wires1 [|]]]; try discriminate.
    inv_bind Hstep as r Hr. unfold mutual_info in Hr. inv_bind Hr as st Hst.
    destruct (Hacc _ Hst) as [Hcap Hstate].
    repeat split; try assumption. intros _. eauto.
Qed.

Lemma statistics_entropy_needs_state_witness :
  custom_wire_labels tagging_device = false
  /\ returns_state tagging_device = true
  /\ (exists st, state tagging_device = Ok (Some st))
  /\ (return_type (observable_of "vnentropy" (Some VnEntropy) 0) = Some MutualInfo ->
      exists wires0 wires1,
        raw_wires (observable_of "vnentropy" (Some VnEntropy) 0) = [wires0; wires1]).
Proof.
  apply (statistics_entropy_needs_state tagging_device
           [observable_of "PauliZ" (Some Expectation) 0;
            observable_of "vnentropy" (Some VnEntropy) 0] None None [1; 7]).
  - reflexivity.
  - right. left. reflexivity.
  - left. reflexivity.
Defined.

(** ** Adjoint Jacobian, continued *)

Lemma check_measurements_Ok (ms : list Measurement) (u : unit) :
  foldlM (fun _ m => check_measurement m) u ms = Ok tt ->
  Forall (fun m => m_return_type m = Expectation
                   /\ String.eqb (m_obs_name m) "Hamiltonian" = false) ms.
Proof.
  revert u. induction ms as [|m ms IH]; intros u Hcheck; simpl in Hcheck; [constructor|].
  inv_bind Hcheck as u' Hm. constructor; [|eapply IH, Hcheck].
  unfold check_measurement in Hm.
  destruct (m_return_type m); try discriminate.
  destruct (String.eqb (m_obs_name m) "Hamiltonian"); [discriminate|]. auto.
Qed.

(** X13. When [adjoint_jacobian] returns, every measurement of the tape
    is an expectation value and none of them has an observable named
    Hamiltonian. *)
Theorem adjoint_jacobian_needs_plain_expectations
    {F St Mx : Type} `{NumericBackend F} (self : AdjointDevice F St Mx)
    (tape : Tape F) (store0 : OpStore) (starting_state : option St)
    (use_device_state : bool) (res : AdjointResult F) :
  adjoint_jacobian self tape store0 starting_state use_device_state = Ok res ->
  Forall (fun m => m_return_type m = Expectation /\ m_obs_name m <> "Hamiltonian"%string)
         (measurements tape).
Proof.
  unfold adjoint_jacobian. intros Hadj. inv_bind Hadj as u Hcheck.
  destruct u. apply check_measurements_Ok in Hcheck.
  eapply Forall_impl; [exact Hcheck|]. simpl. intros m [Hrt Hname].
  split; [exact Hrt|]. intros Heq. rewrite Heq in Hname. discriminate.
Qed.

Lemma adjoint_jacobian_needs_plain_expectations_witness :
  Forall (fun m => m_return_type m = Expectation /\ m_obs_name m <> "Hamiltonian"%string)
         (measurements (example_tape [expval_of "PauliZ"; expval_of "Hermitian"])).
Proof.
  apply (adjoint_jacobian_needs_plain_expectations (counting_backend None)
           (example_tape [expval_of "PauliZ"; expval_of "Hermitian"])
           example_store None false example_adjoint_result).
  vm_compute. reflexivity.
Defined.

Section AdjointFurtherFacts.
Context {F St Mx : Type} `{NumericBackend F}.
Variable self : AdjointDevice F St Mx.

Lemma expand_loop_multi_parameter (store0 : OpStore) (refs : list nat)
    (expanded : list nat) (extra : list Operation) (acc' : list nat * OpStore) :
  foldlM (expand_step self) (expanded, store0 ++ extra) refs = Ok acc' ->
  forall r op,
    In r refs -> store0 !! r = Some op -> (1 < op_num_params op)%nat ->
    op_is_Rot op = true /\ op_inverse op = false.
Proof.
  revert expanded extra. induction refs as [|r0 refs IH]; intros expanded extra Hexp r op Hin;
    [contradiction|].
  cbn [foldlM] in Hexp. inv_bind Hexp as acc1 Hstep.
  assert (Hnext : exists expanded1 extra1, acc1 = (expanded1, store0 ++ extra1)).
  { destruct (expand_step_extends self _ _ _ Hstep) as [e He]. simpl in He.
    destruct acc1 as [expanded1 store1]. simpl in He. subst store1.
    exists expanded1, (extra ++ e). rewrite app_assoc. reflexivity. }
  destruct Hnext as (expanded1 & extra1 & ->).
  destruct Hin as [<-|Hin]; [|eapply IH; eassumption].
  intros Hop Hparams. unfold expand_step in Hstep.
  unfold deref in Hstep. rewrite lookup_app_l in Hstep by (eapply lookup_lt_Some, Hop).
  rewrite Hop in Hstep. rewrite bind_Ok_l in Hstep.
  destruct (Nat.ltb_spec 1 (op_num_params op)); [|lia].
  destruct (op_is_Rot op), (op_inverse op); try discriminate. auto.
Qed.

Lemma expand_loop_single_parameter (store0 : OpStore) (refs : list nat)
    (expanded : list nat) (acc' : list nat * OpStore) :
  Forall (fun op => (op_num_params op <= 1)%nat) store0 ->
  foldlM (expand_step self) (expanded, store0) refs = Ok acc' ->
  snd acc' = store0.
Proof.
  intros Hsingle. revert expanded. induction refs as [|r refs IH]; intros expanded Hexp;
    simpl in Hexp.
  - injection Hexp as <-. reflexivity.
  - inv_bind Hexp as acc1 Hstep. unfold expand_step in Hstep.
    inv_bind Hstep as op Hop. unfold deref in Hop.
    destruct (store0 !! r) as [op'|] eqn:Hr; [|discriminate]. injection Hop as <-.
    rewrite Forall_forall in Hsingle.
    pose proof (Hsingle _ (list_elem_of_lookup_2 _ _ _ Hr)) as Hle.
    destruct (Nat.ltb_spec 1 (op_num_params op')); [lia|].
    match type of Hstep with
    | (if ?c then _ else _) = _ => destruct c
    end; injection Hstep as <-; eapply IH, Hexp.
Qed.

Lemma walk_step_no_gradient (tp : list Z) (st st' : WalkState F St Mx) (r : nat) :
  Forall (fun op => op_grad_method op = None) (store st) ->
  walk_step self tp st r = Ok st' ->
  jac st' = jac st.
Proof.
  intros Hnone. unfold walk_step. intros Hstep.
  inv_bind Hstep as op Hop.
  inv_bind Hstep as d Hd.
  inv_bind Hstep as op' Hop'.
  inv_bind Hstep as ket' Hket.
  inv_bind Hstep as [[jac' tpn'] pn'] Hjac.
  inv_bind Hstep as bras' Hbras.
  injection Hstep as <-. simpl.
  unfold deref in Hop, Hop'.
  destruct (store st !! r) as [op0|] eqn:Hr; [|discriminate]. injection Hop as <-.
  rewrite list_lookup_alter_eq, Hr in Hop'. simpl in Hop'. injection Hop' as <-.
  rewrite Forall_forall in Hnone.
  pose proof (Hnone _ (list_elem_of_lookup_2 _ _ _ Hr)) as Hgrad.
  simpl in Hjac. rewrite Hgrad in Hjac.
  rewrite bool_decide_eq_false_2 in Hjac by (intros Hne; apply Hne; reflexivity).
  injection Hjac as <- _ _. reflexivity.
Qed.

Lemma walk_no_gradient (tp : list Z) (refs : list nat) (st st' : WalkState F St Mx) :
  Forall (fun op => op_grad_method op = None) (store st) ->
  foldlM (walk_step self tp) st refs = Ok st' ->
  jac st' = jac st.
Proof.
  revert st. induction refs as [|r refs IH]; intros st Hnone Hwalk; simpl in Hwalk.
  - injection Hwalk as <-. reflexivity.
  - inv_bind Hwalk as st1 Hstep.
    pose proof (walk_step_no_gradient _ _ _ _ Hnone Hstep) as Hjac.
    apply walk_step_frame in Hstep. destruct Hstep as (Hstore & _).
    rewrite <- Hjac. apply IH; [rewrite Hstore; exact Hnone | exact Hwalk].
Qed.
End AdjointFurtherFacts.

(** X14. When [adjoint_jacobian] returns, every operation of the tape
    that carries more than one parameter is a [Rot] that is not inverted:
    any other multi-parameter operation makes the call fail. *)
Theorem adjoint_jacobian_multi_parameter_operations
    {F St Mx : Type} `{NumericBackend F} (self : AdjointDevice F St Mx)
    (tape : Tape F) (store0 : OpStore) (starting_state : option St)
    (use_device_state : bool) (res : AdjointResult F) :
  adjoint_jacobian self tape store0 starting_state use_device_state = Ok res ->
  forall (r : nat) (op : Operation),
    In r (operations tape) ->
    store0 !! r = Some op ->
    (1 < op_num_params op)%nat ->
    op_is_Rot op = true /\ op_inverse op = false.
Proof.
  unfold adjoint_jacobian. intros Hadj r op Hin Hop Hparams.
  inv_bind Hadj as u Hcheck.
  inv_bind Hadj as ket0 Hket.
  inv_bind Hadj as bras0 Hbras.
  inv_bind Hadj as [expanded store1] Hexp.
  unfold expand_operations in Hexp.
  rewrite <- (app_nil_r store0) in Hexp.
  eapply expand_loop_multi_parameter; try eassumption.
  apply in_rev in Hin. exact Hin.
Qed.

Lemma adjoint_jacobian_multi_parameter_operations_witness :
  op_is_Rot (gate "Rot" 3 (Some "A"%string) true) = true
  /\ op_inverse (gate "Rot" 3 (Some "A"%string) true) = false.
Proof.
  refine (adjoint_jacobian_multi_parameter_operations (counting_backend None)
            (example_tape [expval_of "PauliZ"; expval_of "Hermitian"])
            example_store None false example_adjoint_result _
            1%nat (gate "Rot" 3 (Some "A"%string) true) _ _ _).
  - vm_compute. reflexivity.
  - simpl. auto.
  - reflexivity.
  - simpl. lia.
Defined.

(** X16. When no operation object in the store has a gradient method
    or more than one parameter, a successful [adjoint_jacobian] call
    returns the all-zero matrix: no column is ever written. *)
Theorem adjoint_jacobian_zero_without_gradients
    {F St Mx : Type} `{NumericBackend F} (self : AdjointDevice F St Mx)
    (tape : Tape F) (store0 : OpStore) (starting_state : option St)
    (use_device_state : bool) (res : AdjointResult F) :
  Forall (fun op => op_grad_method op = None /\ (op_num_params op <= 1)%nat) store0 ->
  adjoint_jacobian self tape store0 starting_state use_device_state = Ok res ->
  returned_jac res
  = np_zeros_matrix
      (length (observables tape))
      (length (List.filter (fun k => negb (belongs_to_observable (_par_info tape) k))
                           (trainable_params tape))).
Proof.
  intros Hstore. unfold adjoint_jacobian. intros Hadj.
  inv_bind Hadj as u Hcheck.
  inv_bind Hadj as ket0 Hket.
  inv_bind Hadj as bras0 Hbras.
  inv_bind Hadj as [expanded store1] Hexp.
  inv_bind Hadj as [tp ws] Hsel.
  inv_bind Hadj as final Hwalk.
  injection Hadj as <-. simpl.
  apply expand_loop_single_parameter in Hexp.
  2:{ eapply Forall_impl; [exact Hstore|]. simpl. tauto. }
  simpl in Hexp. subst store1.
  apply select_trainable_loop in Hsel. simpl in Hsel. destruct Hsel as [-> _].
  apply walk_no_gradient in Hwalk.
  - rewrite Hwalk. reflexivity.
  - simpl. eapply Forall_impl; [exact Hstore|]. simpl. tauto.
Qed.

Lemma adjoint_jacobian_zero_without_gradients_witness :
  adjoint_jacobian (counting_backend None) gradient_free_tape gradient_free_store None false
  = Ok gradient_free_result
  /\ shape (returned_jac gradient_free_result) = (1%nat, 1%nat)
  /\ returned_jac gradient_free_result
     = np_zeros_matrix
         (length (observables gradient_free_tape))
         (length (List.filter
                    (fun k => negb (belongs_to_observable (_par_info gradient_free_tape) k))
                    (trainable_params gradient_free_tape))).
Proof.
  split; [vm_compute; reflexivity|]. split; [reflexivity|].
  apply (adjoint_jacobian_zero_without_gradients (counting_backend None) gradient_free_tape
           gradient_free_store None false gradient_free_result).
  - repeat constructor.
  - vm_compute. reflexivity.
Defined.

(** ** Scatter and gather *)

Lemma mapM_Ok_Forall2 {A B} (f : A -> Res B) (l : list A) (k : list B) :
  Forall2 (fun x y => f x = Ok y) l k -> mapM f l = Ok k.
Proof.
  induction 1 as [|x y l k Hxy _ IH]; [reflexivity|].
  simpl. rewrite Hxy. simpl. rewrite IH. reflexivity.
Qed.

Lemma Forall2_of_zip {A B} (P : A -> B -> Prop) (l : list A) (k : list B) :
  length l = length k ->
  (forall x y, (x, y) ∈ zip l k -> P x y) ->
  Forall2 P l k.
Proof.
  revert k. induction l as [|x l IH]; intros [|y k] Hlen Hzip; try discriminate.
  - constructor.
  - constructor.
    + apply Hzip. simpl. apply list_elem_of_here.
    + apply IH; [simpl in Hlen; lia|].
      intros x' y' Hin. apply Hzip. simpl. apply list_elem_of_further, Hin.
Qed.

Lemma scatter_loop {F : Type} (pairs : list (Z * F)) (a : list F) :
  NoDup (map fst pairs) ->
  Forall (fun i => 0 <= i < Z.of_nat (length a)) (map fst pairs) ->
  exists a',
    foldlM (fun a iv => set_item a (fst iv) (snd iv)) a pairs = Ok a'
    /\ length a' = length a
    /\ (forall i v, (i, v) ∈ pairs -> a' !! Z.to_nat i = Some v)
    /\ (forall j x, a !! j = Some x -> Z.of_nat j ∉ map fst pairs -> a' !! j = Some x).
Proof.
  revert a. induction pairs as [|[i v] pairs IH]; intros a Hnd Hr.
  - exists a. split; [reflexivity|]. split; [reflexivity|]. split; [|auto].
    intros i v Hin. apply not_elem_of_nil in Hin. contradiction.
  - simpl in Hnd, Hr. apply NoDup_cons in Hnd. destruct Hnd as [Hfresh Hnd].
    inversion Hr as [|? ? Hi Hr']; subst.
    cbn [foldlM fst snd].
    assert (Hitem : set_item a i v = Ok (<[Z.to_nat i := v]> a)).
    { unfold set_item. rewrite np_index_in_range by assumption. reflexivity. }
    rewrite Hitem, bind_Ok_l.
    destruct (IH (<[Z.to_nat i := v]> a) Hnd) as (a' & Hloop & Hlen & Hset & Hkeep).
    { rewrite length_insert. exact Hr'. }
    exists a'. split; [exact Hloop|]. rewrite length_insert in Hlen.
    split; [exact Hlen|]. split.
    + intros i' v' Hin. apply elem_of_cons in Hin. destruct Hin as [Heq|Hin].
      * injection Heq as -> ->. apply Hkeep.
        -- apply list_lookup_insert_eq. lia.
        -- rewrite Z2Nat.id by lia. exact Hfresh.
      * apply Hset, Hin.
    + intros j x Hx Hout. apply Hkeep.
      * rewrite list_lookup_insert_ne; [exact Hx|].
        intros Heq. apply Hout. simpl. rewrite <- Heq, Z2Nat.id by lia.
        apply list_elem_of_here.
      * intros Hin. apply Hout. simpl. apply list_elem_of_further, Hin.
Qed.

(** X17. When [_scatter] returns for distinct indices within
    [0 <= i < new_dimensions] and an array with one value per index,
    gathering the scattered vector at the same indices returns the array;
    the scattered vector has the requested length and is zero at every
    index that was not written. *)
Theorem scatter_gather_roundtrip {F : Type} `{NumericBackend F}
    (indices : list Z) (array : list F) (new_dimensions : Z) (scattered : list F) :
  NoDup indices ->
  Forall (fun i => 0 <= i < new_dimensions) indices ->
  length array = length indices ->
  _scatter indices array new_dimensions = Ok scattered ->
  Z.of_nat (length scattered) = new_dimensions
  /\ gather scattered indices = Ok array
  /\ forall j, 0 <= j < new_dimensions -> j ∉ indices ->
               scattered !! Z.to_nat j = Some fzero.
Proof.
  intros Hnd Hr Hlen Hok. unfold _scatter in Hok.
  destruct (Z.ltb_spec new_dimensions 0) as [|Hnn]; [discriminate|].
  unfold np_zeros in Hok.
  destruct (Z.ltb_spec new_dimensions (2 ^ 63)) as [Hfit|]; [|discriminate].
  rewrite bind_Ok_l in Hok. unfold broadcast_to in Hok.
  rewrite Hlen, Nat.eqb_refl, bind_Ok_l in Hok.
  assert (Hkeys : map fst (zip indices array) = indices).
  { apply fst_zip. lia. }
  destruct (scatter_loop (zip indices array) (replicate (Z.to_nat new_dimensions) fzero))
    as (scattered' & Hloop & Hlen' & Hset & Hkeep).
  { rewrite Hkeys. exact Hnd. }
  { rewrite Hkeys, length_replicate, Z2Nat.id by lia. exact Hr. }
  rewrite Hloop in Hok. injection Hok as ->.
  rewrite length_replicate in Hlen'.
  split; [lia|]. split.
  - unfold gather. apply mapM_Ok_Forall2. apply Forall2_of_zip; [lia|].
    intros i v Hin.
    assert (Hi : 0 <= i < new_dimensions).
    { rewrite Forall_forall in Hr. apply Hr. rewrite <- Hkeys.
      apply list_elem_of_fmap. exists (i, v). auto. }
    rewrite np_index_in_range by lia. rewrite bind_Ok_l, (Hset _ _ Hin). reflexivity.
  - intros j Hj Hout. apply Hkeep.
    + apply lookup_replicate_2. lia.
    + rewrite Hkeys, Z2Nat.id by lia. exact Hout.
Qed.

Lemma scatter_gather_roundtrip_witness :
  _scatter [3; 0] [1 # 2; 1 # 3]%Q 5 = Ok [1 # 3; 0; 0; 1 # 2; 0]%Q
  /\ Z.of_nat (length [1 # 3; 0; 0; 1 # 2; 0]%Q) = 5
  /\ gather [1 # 3; 0; 0; 1 # 2; 0]%Q [3; 0] = Ok [1 # 2; 1 # 3]%Q
  /\ forall j, 0 <= j < 5 -> j ∉ [3; 0] ->
               [1 # 3; 0; 0; 1 # 2; 0]%Q !! Z.to_nat j = Some fzero.
Proof.
  split; [reflexivity|].
  apply (scatter_gather_roundtrip [3; 0] [1 # 2; 1 # 3]%Q 5 [1 # 3; 0; 0; 1 # 2; 0]%Q).
  - apply NoDup_cons. split; [|apply NoDup_singleton].
    intros Hin. apply list_elem_of_singleton in Hin. discriminate.
  - repeat constructor; lia.
  - reflexivity.
  - reflexivity.
Defined.

(** ** Wire permutation *)

Lemma insert_by_key_perm (x : nat * nat) (l : list (nat * nat)) :
  insert_by_key x l ≡ₚ x :: l.
Proof.
  induction l as [|y l IH]; simpl; [reflexivity|].
  destruct (fst y <=? fst x)%nat; [|reflexivity].
  rewrite IH. apply Permutation_swap.
Qed.

Lemma argsort_perm (l : list nat) : argsort l ≡ₚ seq 0 (length l).
Proof.
  unfold argsort.
  assert (Hgen : forall xs acc : list (nat * nat),
             fold_left (fun acc x => insert_by_key x acc) xs acc ≡ₚ xs ++ acc).
  { induction xs as [|x xs IH]; intros acc; simpl; [reflexivity|].
    rewrite IH, insert_by_key_perm. symmetry. apply Permutation_middle. }
  rewrite Hgen, app_nil_r.
  change (map snd (zip l (seq 0 (length l)))) with ((zip l (seq 0 (length l))).*2).
  rewrite snd_zip by (rewrite length_seq; lia). reflexivity.
Qed.

Lemma pick_cons_S {A} (x : A) (lst : list A) (positions : list nat) :
  pick (x :: lst) (map S positions) = pick lst positions.
Proof.
  unfold pick. induction positions as [|p ps IH]; [reflexivity|].
  simpl. simpl in IH. rewrite IH. reflexivity.
Qed.

Lemma pick_all {A} (lst : list A) : pick lst (seq 0 (length lst)) = Ok lst.
Proof.
  induction lst as [|x lst IH]; [reflexivity|].
  simpl length. simpl seq. rewrite <- seq_shift.
  pose proof (pick_cons_S x lst (seq 0 (length lst))) as Hshift.
  rewrite IH in Hshift. unfold pick in *. simpl. rewrite Hshift. reflexivity.
Qed.

Lemma pick_perm {A} (lst : list A) (positions positions' : list nat) (out' : list A) :
  positions ≡ₚ positions' ->
  pick lst positions' = Ok out' ->
  exists out, pick lst positions = Ok out /\ out ≡ₚ out'.
Proof.
  intros Hperm. revert out'. unfold pick.
  induction Hperm as [|p ps ps' _ IH|p q ps|ps ps' ps'' _ IH1 _ IH2]; intros out' Hout.
  - exists out'. split; [exact Hout|reflexivity].
  - simpl in Hout. inv_bind Hout as x Hx. inv_bind Hout as rest Hrest.
    injection Hout as <-. destruct (IH _ Hrest) as (out & Hpick & Hp).
    exists (x :: out). simpl. rewrite Hx, bind_Ok_l, Hpick. simpl.
    split; [reflexivity|]. rewrite Hp. reflexivity.
  - simpl in Hout. inv_bind Hout as y Hy. inv_bind Hout as rest Hrest.
    inv_bind Hrest as x Hx. inv_bind Hrest as rest' Hrest'.
    injection Hrest as <-. injection Hout as <-.
    exists (x :: y :: rest'). simpl. rewrite Hx, bind_Ok_l, Hy, bind_Ok_l, Hrest'. simpl.
    split; [reflexivity|]. apply Permutation_swap.
  - destruct (IH2 _ Hout) as (mid & Hmid & Hp2).
    destruct (IH1 _ Hmid) as (out & Hpick & Hp1).
    exists out. split; [exact Hpick|]. rewrite Hp1. exact Hp2.
Qed.

Lemma map_wires_total (device_wires ws : list WireLabel) :
  forallb (fun w => wire_in w device_wires) ws = true ->
  exists mapped, map_wires device_wires ws = Ok mapped /\ length mapped = length ws.
Proof.
  unfold map_wires. induction ws as [|w ws IH]; simpl; intros Hall.
  - exists []. auto.
  - apply andb_prop in Hall. destruct Hall as [Hw Hws].
    destruct (IH Hws) as (l & Hl & Hlen).
    destruct (index_of w device_wires) as [i|] eqn:Hi.
    + exists (i :: l). simpl. rewrite Hl. simpl. split; [reflexivity|lia].
    + apply index_of_wire_in in Hi. congruence.
Qed.

Lemma has_duplicates_NoDup (ws : list WireLabel) :
  has_duplicates ws = false <-> NoDup ws.
Proof.
  induction ws as [|w ws IH]; simpl.
  - split; [constructor|reflexivity].
  - rewrite NoDup_cons, <- IH, orb_false_iff. unfold wire_in.
    assert (Hin : existsb (fun v => bool_decide (v = w)) ws = false <-> w ∉ ws).
    { clear. induction ws as [|v ws IH]; simpl.
      - split; [intros _; apply not_elem_of_nil | reflexivity].
      - rewrite orb_false_iff, IH, not_elem_of_cons, bool_decide_eq_false.
        split; intros [H1 H2]; split; auto. }
    rewrite Hin. reflexivity.
Qed.

(** X18. For observable wires that are distinct device wires,
    [_permute_wires] succeeds and returns the same wires in another order:
    no wire is lost, added or repeated. *)
Theorem permute_wires_is_permutation {F : Type} (self : QubitDevice F)
    (observable_wires : list WireLabel) :
  valid_wires (wires self) observable_wires = true ->
  exists permuted,
    _permute_wires self observable_wires = Ok permuted
    /\ permuted ≡ₚ observable_wires.
Proof.
  unfold valid_wires. intros Hvalid. apply andb_prop in Hvalid.
  destruct Hvalid as [Hnodup Hknown]. apply negb_true_iff in Hnodup.
  destruct (map_wires_total _ _ Hknown) as (mapped & Hmap & Hlen).
  unfold _permute_wires, order_wires. rewrite Hmap, !bind_Ok_l.
  destruct (pick_perm observable_wires (argsort mapped) (seq 0 (length observable_wires))
              observable_wires) as (ordered & Hordered & Hp1).
  { rewrite <- Hlen. apply argsort_perm. }
  { apply pick_all. }
  rewrite Hordered, bind_Ok_l.
  destruct (pick_perm ordered (argsort mapped) (seq 0 (length ordered)) ordered)
    as (permuted & Hpermuted & Hp2).
  { rewrite (Permutation_length Hp1), <- Hlen. apply argsort_perm. }
  { apply pick_all. }
  rewrite bind_Ok_l, Hpermuted, bind_Ok_l.
  assert (Hperm : permuted ≡ₚ observable_wires) by (rewrite Hp2; exact Hp1).
  exists permuted. split; [|exact Hperm].
  unfold Wires.
  assert (Hnd : has_duplicates permuted = false).
  { apply has_duplicates_NoDup. rewrite Hperm. apply has_duplicates_NoDup, Hnodup. }
  rewrite Hnd. reflexivity.
Qed.

Lemma permute_wires_is_permutation_witness :
  exists permuted,
    _permute_wires (three_wire_device None None) [IntWire 2; IntWire 0; IntWire 1]
    = Ok permuted
    /\ permuted ≡ₚ [IntWire 2; IntWire 0; IntWire 1].
Proof.
  apply (permute_wires_is_permutation (three_wire_device None None)
           [IntWire 2; IntWire 0; IntWire 1]).
  reflexivity.
Defined.

(** The example of the docstring of [_permute_wires]: for the wires
    [2, 0, 1] of [O_2] on a device with wires [0, 1, 2] the permuted wires
    are [1, 2, 0]. *)
Example permute_wires_docstring :
  _permute_wires (three_wire_device None None) [IntWire 2; IntWire 0; IntWire 1]
  = Ok [IntWire 1; IntWire 2; IntWire 0].
Proof. reflexivity. Qed.

(** ** Samples of observables *)

Lemma column_of_bits (P : Z -> Prop) (c : nat) (rows : list (list Z)) (column : list Z) :
  Forall (Forall P) rows ->
  mapM (fun row => match row !! c with
                   | Some x => Ok x
                   | None => Raise IndexError
                   end) rows = Ok column ->
  length column = length rows /\ Forall P column.
Proof.
  revert column. induction rows as [|row rows IH]; intros column Hrows Hcol; simpl in Hcol.
  - injection Hcol as <-. split; [reflexivity|constructor].
  - inversion Hrows as [|? ? Hrow Hrest]; subst.
    inv_bind Hcol as x Hx. inv_bind Hcol as column' Hcol'. injection Hcol as <-.
    destruct (IH _ Hrest Hcol') as [Hlen Hall].
    split; [simpl; congruence|]. constructor; [|exact Hall].
    destruct (row !! c) as [y|] eqn:Hy; [|discriminate]. injection Hx as <-.
    rewrite Forall_forall in Hrow. apply Hrow. eapply list_elem_of_lookup_2, Hy.
Qed.

(** X19. For a PauliX, PauliY, PauliZ or Hadamard observable on a buffer
    of 0/1 outcomes, [sample] without [bin_size] returns one eigenvalue
    per selected shot, each of them [1] or [-1]. *)
Theorem sample_pauli_eigenvalues {F : Type} (self : QubitDevice F)
    (observable : SampledObservable F) (shot_range : option (Z * Z))
    (buffer : list (list Z)) (samples : Samples F) :
  is_pauli_name (so_name observable) = true ->
  _samples self = Some buffer ->
  Forall (Forall is_bit) buffer ->
  sample_observable self observable shot_range None = Ok samples ->
  exists v,
    samples = IntVector v
    /\ length v = length (select_rows buffer shot_range)
    /\ Forall (fun x => x = 1 \/ x = -1) v.
Proof.
  intros Hname Hbuf Hbits. unfold sample_observable. rewrite Hname, Hbuf.
  intros Hs. inv_bind Hs as device_wires Hmap. inv_bind Hs as s Hbody.
  injection Hs as <-. inv_bind Hbody as first_wire Hfirst.
  rewrite bind_Ok_l in Hbody. inv_bind Hbody as column Hcol. injection Hbody as <-.
  destruct (column_of_bits is_bit _ _ _ (select_rows_Forall _ _ shot_range Hbits) Hcol)
    as [Hlen Hall].
  eexists. split; [reflexivity|]. split; [rewrite length_map; exact Hlen|].
  apply Forall_map. eapply Forall_impl; [exact Hall|]. simpl.
  intros b [-> | ->]; [left | right]; reflexivity.
Qed.

Lemma sample_pauli_eigenvalues_witness :
  exists v,
    (IntVector [1; -1; -1; 1] : Samples Q) = IntVector v
    /\ length v = length (select_rows four_shots None)
    /\ Forall (fun x => x = 1 \/ x = -1) v.
Proof.
  apply (sample_pauli_eigenvalues (three_wire_device (Some 4) (Some four_shots))
           {| so_name := Some "PauliZ"%string; so_wires := [IntWire 1];
              so_is_measurement_process := false;
              so_eigvals := Raise (ExternalError "eigvals") |}
           None four_shots (IntVector [1; -1; -1; 1])).
  - reflexivity.
  - reflexivity.
  - apply is_bit_buffer_check. reflexivity.
  - reflexivity.
Defined.






(** ** Shot vectors *)

Lemma py_slice_range {A} (l : list A) (start stop : Z) :
  0 <= start <= stop -> stop <= Z.of_nat (length l) ->
  py_slice l start stop = take (Z.to_nat (stop - start)) (drop (Z.to_nat start) l).
Proof.
  intros Hs Hl. unfold py_slice, slice_bound.
  destruct (Z.ltb_spec start 0); [lia|]. destruct (Z.ltb_spec stop 0); [lia|].
  rewrite !Z.min_l by lia. reflexivity.
Qed.

Lemma shot_vector_fold {A} (buffer : list A) (shot_vector : list (Z * Z))
    (s1 : Z) (calls : list ((Z * Z) * Z)) :
  Forall (fun t => 0 < fst t /\ 0 < snd t) shot_vector ->
  0 <= s1 ->
  s1 + sum_Z (map (fun t => fst t * snd t) shot_vector) <= Z.of_nat (length buffer) ->
  Z.of_nat (length buffer) < 2 ^ 63 ->
  exists rest,
    fold_left shot_vector_step shot_vector (s1, calls)
    = (s1 + sum_Z (map (fun t => fst t * snd t) shot_vector), calls ++ rest)
    /\ Forall2 (fun t call =>
                  snd call = fst t
                  /\ Z.of_nat (length (select_rows buffer (Some (fst call)))) = fst t * snd t)
               shot_vector rest
    /\ concat (map (fun call => select_rows buffer (Some (fst call))) rest)
       = take (Z.to_nat (sum_Z (map (fun t => fst t * snd t) shot_vector)))
              (drop (Z.to_nat s1) buffer).
Proof.
  intros Hpos. revert s1 calls.
  induction Hpos as [|[sh cp] sv [Hsh Hcp] Hsv IH]; intros s1 calls Hs1 Hsum Hfit.
  - exists []. simpl. rewrite Z.add_0_r, app_nil_r. repeat split. constructor.
  - simpl in Hsh, Hcp. cbn [map sum_Z fold_right fst snd] in Hsum.
    fold (sum_Z (map (fun t => fst t * snd t) sv)) in Hsum.
    assert (Hrest : 0 <= sum_Z (map (fun t => fst t * snd t) sv)).
    { clear - Hsv. induction Hsv as [|[a b] l [Ha Hb] _ IHl]; simpl; [lia|].
      simpl in Ha, Hb. pose proof (Z.mul_pos_pos a b Ha Hb). lia. }
    assert (Hprod : 0 < sh * cp) by (apply Z.mul_pos_pos; assumption).
    cbn [fold_left]. unfold shot_vector_step at 2. cbn [fst snd].
    rewrite (wrap_small int64 (sh * cp)) by (simpl; lia).
    rewrite (wrap_small int64 (s1 + sh * cp)) by (simpl; lia).
    destruct (IH (s1 + sh * cp) (calls ++ [((s1, s1 + sh * cp), sh)]))
      as (rest & Hfold & Hcalls & Hcat); try lia.
    exists (((s1, s1 + sh * cp), sh) :: rest).
    cbn [map sum_Z fold_right fst snd].
    fold (sum_Z (map (fun t => fst t * snd t) sv)).
    assert (Hsel : select_rows buffer (Some (s1, s1 + sh * cp))
                   = take (Z.to_nat (sh * cp)) (drop (Z.to_nat s1) buffer)).
    { simpl. rewrite py_slice_range by lia. f_equal. f_equal. lia. }
    split; [|split].
    + rewrite Hfold, <- app_assoc. f_equal. lia.
    + constructor; [|exact Hcalls]. cbn [fst snd]. split; [reflexivity|].
      rewrite Hsel, length_take_le; [lia|]. rewrite length_drop. lia.
    + cbn [concat fst]. rewrite Hcat, Hsel.
      replace (Z.to_nat (s1 + sh * cp)) with (Z.to_nat s1 + Z.to_nat (sh * cp))%nat by lia.
      rewrite <- drop_drop, take_take_drop. f_equal. lia.
Qed.

(** X21. For a shot vector of positive shot counts and copies whose
    total does not exceed the rows of the sample buffer, the successive
    [self.statistics] calls of [execute] use the shot count of each tuple
    as [bin_size], select [shots * copies] rows each, and their
    selections, put end to end, are exactly the first [total] rows of the
    buffer: the ranges are contiguous, start at row 0 and do not
    overlap. *)
Theorem shot_vector_calls_partition {A} (buffer : list A) (shot_vector : list (Z * Z)) :
  Forall (fun t => 0 < fst t /\ 0 < snd t) shot_vector ->
  sum_Z (map (fun t => fst t * snd t) shot_vector) <= Z.of_nat (length buffer) ->
  Z.of_nat (length buffer) < 2 ^ 63 ->
  Forall2 (fun t call =>
             snd call = fst t
             /\ Z.of_nat (length (select_rows buffer (Some (fst call)))) = fst t * snd t)
          shot_vector (shot_vector_calls shot_vector)
  /\ concat (map (fun call => select_rows buffer (Some (fst call)))
                 (shot_vector_calls shot_vector))
     = take (Z.to_nat (sum_Z (map (fun t => fst t * snd t) shot_vector))) buffer.
Proof.
  intros Hpos Hsum Hfit.
  destruct (shot_vector_fold buffer shot_vector 0 [] Hpos) as (rest & Hfold & Hcalls & Hcat);
    try lia.
  unfold shot_vector_calls. rewrite Hfold. simpl. split; [exact Hcalls|exact Hcat].
Qed.

Lemma shot_vector_calls_partition_witness :
  Forall2 (fun t call =>
             snd call = fst t
             /\ Z.of_nat (length (select_rows four_shots (Some (fst call)))) = fst t * snd t)
          [(1, 2); (2, 1)] (shot_vector_calls [(1, 2); (2, 1)])
  /\ concat (map (fun call => select_rows four_shots (Some (fst call)))
                 (shot_vector_calls [(1, 2); (2, 1)]))
     = take (Z.to_nat (sum_Z (map (fun t => fst t * snd t) [(1, 2); (2, 1)]))) four_shots.
Proof.
  apply (shot_vector_calls_partition four_shots [(1, 2); (2, 1)]).
  - repeat constructor; simpl; lia.
  - simpl. lia.
  - simpl. lia.
Defined.

(** The example of the docstring of [statistics]: a device with shots
    [5, (10, 3), 100] uses the ranges [0, 5], [5, 35] and [35, 135] with
    bin sizes 5, 10 and 100. *)
Example shot_vector_calls_docstring :
  shot_vector_calls [(5, 1); (10, 3); (100, 1)]
  = [((0, 5), 5); ((5, 35), 10); ((35, 135), 100)].
Proof. reflexivity. Qed.

(** ** Marginal probabilities: the reordering step *)

Lemma mapM_perm {A B} (f : A -> Res B) (l l' : list A) (k' : list B) :
  l ≡ₚ l' -> mapM f l' = Ok k' -> exists k, mapM f l = Ok k /\ k ≡ₚ k'.
Proof.
  intros Hperm. revert k'.
  induction Hperm as [|p ps ps' _ IH|p q ps|ps ps' ps'' _ IH1 _ IH2]; intros out' Hout.
  - exists out'. split; [exact Hout|reflexivity].
  - simpl in Hout. inv_bind Hout as x Hx. inv_bind Hout as rest Hrest.
    injection Hout as <-. destruct (IH _ Hrest) as (out & Hpick & Hp).
    exists (x :: out). simpl. rewrite Hx, bind_Ok_l, Hpick. simpl.
    split; [reflexivity|]. rewrite Hp. reflexivity.
  - simpl in Hout. inv_bind Hout as y Hy. inv_bind Hout as rest Hrest.
    inv_bind Hrest as x Hx. inv_bind Hrest as rest' Hrest'.
    injection Hrest as <-. injection Hout as <-.
    exists (x :: y :: rest'). simpl. rewrite Hx, bind_Ok_l, Hy, bind_Ok_l, Hrest'. simpl.
    split; [reflexivity|]. apply Permutation_swap.
  - destruct (IH2 _ Hout) as (mid & Hmid & Hp2).
    destruct (IH1 _ Hmid) as (out & Hpick & Hp1).
    exists out. split; [exact Hpick|]. rewrite Hp1. exact Hp2.
Qed.

Lemma gather_all {F : Type} (l : list F) :
  gather l (arange (Z.of_nat (length l))) = Ok l.
Proof.
  unfold gather. apply mapM_Ok_Forall2.
  apply Forall2_same_length_lookup_2.
  - apply length_arange_nat.
  - intros i x y Hx Hy.
    assert (Hi : (i < length l)%nat) by (eapply lookup_lt_Some; eauto).
    rewrite lookup_arange in Hx by assumption. injection Hx as <-.
    rewrite np_index_in_range by lia. rewrite bind_Ok_l, Nat2Z.id, Hy. reflexivity.
Qed.

Lemma select_columns_project (rows : list (list Z)) (cols : list nat) :
  Forall (fun row => Forall (fun c => (c < length row)%nat) cols) rows ->
  select_columns rows cols = Ok (map (fun row => project_bits row cols) rows).
Proof.
  intros Hrows. unfold select_columns. apply mapM_Ok_Forall2.
  apply Forall2_fmap_r, Forall_Forall2_diag. eapply Forall_impl; [exact Hrows|].
  intros row Hrow. simpl. apply mapM_Ok_Forall2. unfold project_bits.
  apply Forall2_fmap_r, Forall_Forall2_diag. eapply Forall_impl; [exact Hrow|].
  intros c Hc. simpl. destruct (row !! c) as [x|] eqn:E.
  - erewrite nth_lookup_Some by exact E. reflexivity.
  - apply lookup_ge_None in E. simpl in Hc. lia.
Qed.

Lemma bits_msb_is_bit (n : nat) (m : Z) : Forall is_bit (bits_msb n m).
Proof.
  revert m. induction n as [|n IH]; intros m; simpl; [constructor|].
  apply Forall_app. split; [apply IH|]. constructor; [|constructor].
  pose proof (Z.mod_pos_bound m 2). unfold is_bit. lia.
Qed.

Lemma project_bits_is_bit (row : list Z) (axes : list nat) :
  Forall is_bit row -> Forall is_bit (project_bits row axes).
Proof.
  intros Hrow. unfold project_bits. apply Forall_fmap, Forall_forall. intros a _. simpl.
  destruct (nth_in_or_default a row 0) as [Hin | ->]; [|left; reflexivity].
  rewrite Forall_forall in Hrow. apply Hrow, list_elem_of_In, Hin.
Qed.

Lemma bits_msb_inj (k : nat) (i j : Z) :
  (k < 63)%nat -> 0 <= i < 2 ^ Z.of_nat k -> 0 <= j < 2 ^ Z.of_nat k ->
  bits_msb k i = bits_msb k j -> i = j.
Proof.
  intros Hk Hi Hj Heq.
  assert (Hpow : 2 ^ Z.of_nat k < 2 ^ 63) by (apply Z.pow_lt_mono_r; lia).
  apply (f_equal (fun row => dot_int64 row (powers_of_two_desc k))) in Heq.
  rewrite !dot_int64_bits_msb, !Z.mod_small in Heq by assumption.
  rewrite !wrap_small in Heq by (simpl; lia). exact Heq.
Qed.

Lemma arange_elem (n z : Z) : 0 <= z < n -> z ∈ arange n.
Proof.
  intros Hz. unfold arange. apply list_elem_of_fmap. exists (Z.to_nat z).
  split; [lia|]. apply elem_of_seq. lia.
Qed.

Lemma NoDup_arange (n : Z) : NoDup (arange n).
Proof.
  unfold arange. apply NoDup_fmap_2; [apply Nat2Z.inj'|apply NoDup_seq].
Qed.

(** The gather indices computed by [marginal_prob] list every basis
    state of the requested wires exactly once. *)
Lemma marginal_indices_permutation (k : nat) (sigma : list nat) (permuted : list (list Z)) :
  (k < 63)%nat ->
  sigma ≡ₚ seq 0 k ->
  select_columns (map (bits_msb k) (arange (2 ^ Z.of_nat k))) sigma = Ok permuted ->
  matvec_int64 permuted (powers_of_two_desc k) ≡ₚ arange (2 ^ Z.of_nat k).
Proof.
  intros Hk Hsigma Hsel.
  assert (Hpow : 2 ^ Z.of_nat k < 2 ^ 63) by (apply Z.pow_lt_mono_r; lia).
  assert (Hlen : length sigma = k).
  { rewrite (Permutation_length Hsigma). apply length_seq. }
  assert (Hbound : Forall (fun c => (c < k)%nat) sigma).
  { apply Forall_forall. intros c Hc. rewrite Hsigma in Hc. apply elem_of_seq in Hc. lia. }
  rewrite select_columns_project in Hsel.
  2:{ apply Forall_fmap, Forall_forall. intros j _. simpl.
      rewrite length_bits_msb. exact Hbound. }
  injection Hsel as <-. unfold matvec_int64. rewrite !map_map.
  set (g := fun j => dot_int64 (project_bits (bits_msb k j) sigma) (powers_of_two_desc k)).
  assert (Hrow : forall j,
             let row := project_bits (bits_msb k j) sigma in
             length row = k /\ Forall is_bit row
             /\ g j = binary_value row /\ 0 <= binary_value row < 2 ^ Z.of_nat k).
  { intros j row.
    assert (Hl : length row = k) by (unfold row, project_bits; rewrite length_map; exact Hlen).
    assert (Hb : Forall is_bit row) by (apply project_bits_is_bit, bits_msb_is_bit).
    destruct (dot_int64_bit_row row Hb) as [Hdot Hrange]; [rewrite Hl; exact Hpow|].
    rewrite Hl in Hdot, Hrange. repeat split; try assumption; lia. }
  apply submseteq_length_Permutation.
  - apply NoDup_submseteq.
    + apply NoDup_fmap_2_strong; [|apply NoDup_arange].
      intros i j Hi Hj Hg.
      apply list_elem_of_In, arange_bounds in Hi. apply list_elem_of_In, arange_bounds in Hj.
      destruct (Hrow i) as (Hli & Hbi & Hgi & _). destruct (Hrow j) as (Hlj & Hbj & Hgj & _).
      fold (g i) in Hg. fold (g j) in Hg. rewrite Hgi, Hgj in Hg.
      destruct (bit_row_bits_msb _ Hbi) as [_ Hri]. destruct (bit_row_bits_msb _ Hbj) as [_ Hrj].
      rewrite Hli, Hg in Hri. rewrite Hlj in Hrj.
      assert (Heq : project_bits (bits_msb k i) sigma = project_bits (bits_msb k j) sigma)
        by congruence.
      unfold project_bits in Heq.
      apply (bits_msb_inj k); try assumption.
      apply (nth_ext _ _ 0 0); [rewrite !length_bits_msb; reflexivity|].
      intros c Hc. rewrite length_bits_msb in Hc.
      eapply map_ext_in_iff in Heq; [exact Heq|].
      apply list_elem_of_In. rewrite Hsigma. apply elem_of_seq. lia.
    + intros x Hx. apply list_elem_of_fmap in Hx. destruct Hx as (j & -> & _).
      destruct (Hrow j) as (_ & _ & Hgj & Hrange). fold (g j). rewrite Hgj.
      apply arange_elem. exact Hrange.
  - rewrite !length_map. reflexivity.
Qed.

Lemma wire_in_elem (w : WireLabel) (ws : list WireLabel) :
  wire_in w ws = true <-> w ∈ ws.
Proof.
  unfold wire_in. induction ws as [|v ws IH]; simpl.
  - split; [discriminate|]. intros Hin. apply elem_of_nil in Hin. contradiction.
  - rewrite orb_true_iff, IH, elem_of_cons, bool_decide_eq_true.
    split; (intros [Hl | Hr]; [left; congruence | right; exact Hr]).
Qed.

Lemma positions_NoDup (D ws : list WireLabel) (l : list nat) :
  NoDup ws -> Forall2 (fun w i => D !! i = Some w) ws l -> NoDup l.
Proof.
  intros Hnd Hpos. induction Hpos as [|w i ws l Hwi Hpos IH]; [constructor|].
  apply NoDup_cons in Hnd. destruct Hnd as [Hnotin Hnd].
  apply NoDup_cons. split; [|apply IH, Hnd].
  intros Hin. apply list_elem_of_lookup in Hin. destruct Hin as [p Hp].
  destruct (Forall2_lookup_r _ _ _ _ _ Hpos Hp) as (w' & Hw' & Hiw').
  assert (w' = w) by congruence. subst w'.
  apply Hnotin. apply list_elem_of_lookup. exists p. exact Hw'.
Qed.

(** With distinct device wires, the axes that [marginal_prob] keeps are
    the device positions of the requested wires. *)
Lemma remaining_axes_active (D ws : list WireLabel) (dw inactive : list nat) :
  NoDup D -> NoDup ws ->
  map_wires D ws = Ok dw ->
  map_wires D (unique_wires D ws) = Ok inactive ->
  remaining_axes (length D) inactive ≡ₚ dw.
Proof.
  intros HD Hws Hdw Hinactive.
  apply map_wires_known in Hdw. apply map_wires_known in Hinactive.
  assert (Hmem : forall a, In a (remaining_axes (length D) inactive)
                           <-> ((a < length D)%nat /\ a ∉ inactive)).
  { intros a. unfold remaining_axes. rewrite filter_In, in_seq, negb_true_iff.
    rewrite <- not_true_iff_false, existsb_exists.
    split; intros [Ha Hnot]; (split; [lia|]); intros Hin; apply Hnot.
    - exists a. split; [apply list_elem_of_In, Hin|apply Nat.eqb_refl].
    - destruct Hin as (x & Hx & Hax). apply Nat.eqb_eq in Hax. subst x.
      apply list_elem_of_In, Hx. }
  apply NoDup_Permutation.
  - unfold remaining_axes. apply NoDup_ListNoDup, List.NoDup_filter, List.seq_NoDup.
  - exact (positions_NoDup D ws dw Hws Hdw).
  - intros a. rewrite list_elem_of_In, Hmem. split.
    + intros [Ha Hnot].
      destruct (lookup_lt_is_Some_2 D a Ha) as [w Hw].
      destruct (wire_in w ws) eqn:Hin.
      * apply wire_in_elem, list_elem_of_lookup in Hin. destruct Hin as [p Hp].
        destruct (Forall2_lookup_l _ _ _ _ _ Hdw Hp) as (i & Hi & Hiw).
        assert (i = a) by exact (NoDup_lookup D i a w HD Hiw Hw). subst i.
        apply list_elem_of_lookup. exists p. exact Hi.
      * exfalso. apply Hnot.
        assert (Hu : w ∈ unique_wires D ws).
        { apply list_elem_of_In. unfold unique_wires. apply filter_In. split.
          - apply list_elem_of_In, list_elem_of_lookup. exists a. exact Hw.
          - rewrite Hin. reflexivity. }
        apply list_elem_of_lookup in Hu. destruct Hu as [p Hp].
        destruct (Forall2_lookup_l _ _ _ _ _ Hinactive Hp) as (i & Hi & Hiw).
        assert (i = a) by exact (NoDup_lookup D i a w HD Hiw Hw). subst i.
        apply list_elem_of_lookup. exists p. exact Hi.
    + intros Ha. apply list_elem_of_lookup in Ha. destruct Ha as [p Hp].
      destruct (Forall2_lookup_r _ _ _ _ _ Hdw Hp) as (w & Hw & Haw).
      split; [eapply lookup_lt_Some; exact Haw|].
      intros Hin. apply list_elem_of_lookup in Hin. destruct Hin as [q Hq].
      destruct (Forall2_lookup_r _ _ _ _ _ Hinactive Hq) as (w' & Hw' & Haw').
      assert (w' = w) by congruence. subst w'.
      assert (Hu : In w (unique_wires D ws)).
      { apply list_elem_of_In, list_elem_of_lookup. exists q. exact Hw'. }
      unfold unique_wires in Hu. apply filter_In in Hu. destruct Hu as [_ Hout].
      apply negb_true_iff in Hout.
      assert (Hyes : wire_in w ws = true).
      { apply wire_in_elem, list_elem_of_lookup. exists p. exact Hw. }
      congruence.
Qed.

(** X22. On a device with distinct wires, a successful [marginal_prob]
    call for fewer than 63 requested wires returns a rearrangement of the
    tensor summed over the inactive wires: the reordering for the
    requested wire order reads every marginal entry exactly once, none is
    dropped or repeated. *)
Theorem marginal_prob_rearranges
    {F : Type} `{NumericBackend F} (self : QubitDevice F)
    (prob out : list F) (ws : list WireLabel) :
  has_duplicates (wires self) = false ->
  (length ws < 63)%nat ->
  marginal_prob self prob (Some ws) = Ok out ->
  exists inactive_device_wires,
    map_wires (wires self) (unique_wires (wires self) ws) = Ok inactive_device_wires
    /\ out ≡ₚ reduce_sum_flatten (num_wires self) inactive_device_wires prob.
Proof.
  intros Hdev Hk. unfold marginal_prob. intros Hm.
  inv_bind Hm as wires1 Hw. inv_bind Hm as device_wires Hmap.
  inv_bind Hm as inactive Hin. inv_bind Hm as prob1 Hresh.
  inv_bind Hm as basis_states Hgen. inv_bind Hm as permuted Hsel.
  unfold Wires in Hw. destruct (has_duplicates ws) eqn:Hdup; [discriminate|].
  injection Hw as <-.
  unfold reshape_tensor in Hresh.
  destruct (Z.of_nat (length prob) =? _); [|discriminate]. injection Hresh as <-.
  exists inactive. split; [exact Hin|].
  apply has_duplicates_NoDup in Hdev. apply has_duplicates_NoDup in Hdup.
  pose proof (remaining_axes_active _ _ _ _ Hdev Hdup Hmap Hin) as Hkeep.
  pose proof (mapM_Ok_length _ _ _ Hmap) as Hlen.
  destruct (length device_wires) as [|k'] eqn:Hdw; [discriminate|].
  rewrite generate_basis_states_bits in Hgen by lia. injection Hgen as <-.
  assert (Hsigma : argsort (argsort device_wires) ≡ₚ seq 0 (S k')).
  { rewrite argsort_perm. rewrite (Permutation_length (argsort_perm device_wires)).
    rewrite length_seq, Hdw. reflexivity. }
  pose proof (marginal_indices_permutation (S k') _ _ ltac:(lia) Hsigma Hsel) as Hperm.
  set (reduced := reduce_sum_flatten (num_wires self) inactive prob) in *.
  assert (Hreduced : 2 ^ Z.of_nat (S k') = Z.of_nat (length reduced)).
  { unfold reduced, reduce_sum_flatten. rewrite length_map.
    fold (num_wires self) in Hkeep. rewrite (Permutation_length Hkeep), Hdw.
    rewrite pow2_of_nat, length_arange_nat. reflexivity. }
  rewrite Hreduced in Hperm.
  destruct (mapM_perm _ _ _ _ Hperm (gather_all reduced)) as (out' & Hout' & Hp).
  unfold gather in Hm, Hout'. rewrite Hm in Hout'. injection Hout' as ->. exact Hp.
Qed.

Lemma marginal_prob_rearranges_witness :
  exists inactive_device_wires,
    map_wires (wires (three_wire_device None None))
              (unique_wires (wires (three_wire_device None None)) [IntWire 2; IntWire 0])
    = Ok inactive_device_wires
    /\ eight_entries_marginal
       ≡ₚ reduce_sum_flatten (num_wires (three_wire_device None None))
                             inactive_device_wires eight_entries.
Proof.
  apply (marginal_prob_rearranges (three_wire_device None None) eight_entries
           eight_entries_marginal [IntWire 2; IntWire 0]).
  - reflexivity.
  - simpl. lia.
  - vm_compute. reflexivity.
Defined.

(** The example of the docstring of [marginal_prob]: on the wires
    [0, 1, 2], the marginal on [2, 0] lists the basis states of the wires
    [(0, 2)] in the order [00, 10, 01, 11]. *)
Example marginal_prob_docstring :
  marginal_prob (three_wire_device None None) eight_entries (Some [IntWire 2; IntWire 0])
  = Ok [0 + 0 + 2; 0 + 4 + 6; 0 + 1 + 3; 0 + 5 + 7]%Q.
Proof. reflexivity. Qed.
